(** * Booking Service dashboard generator

    A shallow embedding of [dashboards/booking_service_dashboard.py]: the
    literal dashboard tree built by [create_dashboard], the panel numbering
    pass, the JSON encoder and decoder the script calls, and the script's
    main block with its standard output and exit status. *)

From Stdlib Require Import String Ascii List ZArith Lia Bool.
From Stdlib Require Import DecimalString DecimalPos DecimalZ.
Import ListNotations.

#[local] Open Scope string_scope.
#[local] Open Scope Z_scope.

(** ** Text helpers *)

(** The double-quote and line-feed characters, by code point. *)
Definition dquote : ascii := ascii_of_nat 34.
Definition newline : ascii := ascii_of_nat 10.

Definition DQ : string := String dquote EmptyString.
Definition LF : string := String newline EmptyString.

(** [q s] is [s] between double quotes, as the label matchers inside the
    query literals are written. *)
Definition q (s : string) : string := DQ ++ s ++ DQ.

(** ** Data model *)

(** The classes are those of the dashboard library the script imports; a
    record has the fields the script passes as keyword arguments. *)

(** A Python number as it can occur in an axis bound: an [int], or one of
    the three non-finite floats.  Finite non-integral floats do not occur in
    the script and are left out. *)
Inductive number : Type :=
| Int (z : Z)
| NaN
| Infinity
| NegInfinity.

(** One query of a panel: its expression and the legend of its series. *)
Record Target : Type := mkTarget {
  expr : string;
  legendFormat : string
}.

(** One axis of a graph: its unit format and optional bounds. *)
Record YAxis : Type := mkYAxis {
  format : string;
  min : option number;
  max : option number
}.

(** The axes of a graph; the script sets the left one. *)
Record YAxes : Type := mkYAxes {
  left : YAxis
}.

(** The panel variants.  [KUnrecognized] stands for an object in a row's
    panel list whose class the serializer does not know. *)
Inductive PanelKind : Type :=
| KSingleStat (valueName : string) (stat_format : string) (sparklineShow : bool)
| KGraph (yAxes : YAxes)
| KUnrecognized (cls : string).

(** A panel of either variant.  [id] is the identifier that the numbering
    pass assigns; the script itself passes none. *)
Record Panel : Type := mkPanel {
  id : option Z;
  panel_title : string;
  dataSource : string;
  targets : list Target;
  kind : PanelKind
}.

(** A row: a title and its panels, in order. *)
Record Row : Type := mkRow {
  row_title : string;
  panels : list Panel
}.

(** A template variable. *)
Record Template : Type := mkTemplate {
  name : string;
  label : string;
  type : string;
  query : string
}.

(** The [list] of template variables of a dashboard. *)
Record Templating : Type := mkTemplating {
  templates : list Template
}.

(** A dashboard: its settings and its rows, in order. *)
Record Dashboard : Type := mkDashboard {
  title : string;
  description : string;
  tags : list string;
  timezone : string;
  refresh : string;
  templating : Templating;
  rows : list Row
}.

(** Constructors with the keyword arguments the script passes; a panel is
    created without an identifier. *)
Definition SingleStat (title dataSource : string) (targets : list Target)
    (valueName format : string) (sparklineShow : bool) : Panel :=
  mkPanel None title dataSource targets (KSingleStat valueName format sparklineShow).

Definition Graph (title dataSource : string) (targets : list Target)
    (yAxes : YAxes) : Panel :=
  mkPanel None title dataSource targets (KGraph yAxes).

(** Modelled from the spec: the unit-format constants imported from the
    dashboard library, which is not part of the repository.  They are the
    unit identifiers of the target platform. *)
Definition SHORT_FORMAT : string := "short".
Definition OPS_FORMAT : string := "ops".
Definition SECONDS_FORMAT : string := "s".

(** ** The dashboard literal (lines 34-265) *)

Definition overview_row : Row :=
  mkRow "Overview"
    [ SingleStat "Total Events Created" "$datasource"
        [ mkTarget "sum(booking_service_events_created_total)" "Events" ]
        "current" SHORT_FORMAT true;
      SingleStat "Total Bookings Created" "$datasource"
        [ mkTarget "sum(booking_service_bookings_created_total)" "Bookings" ]
        "current" SHORT_FORMAT true;
      SingleStat "Total Tickets Booked" "$datasource"
        [ mkTarget "sum(booking_service_tickets_booked_total)" "Tickets" ]
        "current" SHORT_FORMAT true;
      SingleStat "Request Rate (req/s)" "$datasource"
        [ mkTarget "rate(booking_service_http_request_duration_seconds_count[5m])"
            "Rate" ]
        "current" OPS_FORMAT true ].

Definition business_row : Row :=
  mkRow "Business Metrics"
    [ Graph "Events Created Over Time" "$datasource"
        [ mkTarget ("rate(booking_service_events_created_total{status="
                      ++ q "success" ++ "}[5m])") "Success";
          mkTarget ("rate(booking_service_events_created_total{status="
                      ++ q "error" ++ "}[5m])") "Error" ]
        (mkYAxes (mkYAxis OPS_FORMAT None None));
      Graph "Bookings Created Over Time" "$datasource"
        [ mkTarget ("rate(booking_service_bookings_created_total{status="
                      ++ q "success" ++ "}[5m])") "Success";
          mkTarget ("rate(booking_service_bookings_created_total{status="
                      ++ q "error" ++ "}[5m])") "Error" ]
        (mkYAxes (mkYAxis OPS_FORMAT None None)) ].

Definition http_row : Row :=
  mkRow "HTTP Performance"
    [ Graph "Request Rate by Endpoint" "$datasource"
        [ mkTarget "rate(booking_service_http_request_duration_seconds_count[5m])"
            "{{method}} {{path}}" ]
        (mkYAxes (mkYAxis OPS_FORMAT None None));
      Graph "Response Time (p50, p95, p99)" "$datasource"
        [ mkTarget "histogram_quantile(0.50, rate(booking_service_http_request_duration_seconds_bucket[5m]))"
            "p50";
          mkTarget "histogram_quantile(0.95, rate(booking_service_http_request_duration_seconds_bucket[5m]))"
            "p95";
          mkTarget "histogram_quantile(0.99, rate(booking_service_http_request_duration_seconds_bucket[5m]))"
            "p99" ]
        (mkYAxes (mkYAxis SECONDS_FORMAT None None)) ].

Definition errors_row : Row :=
  mkRow "Error Rates"
    [ Graph "HTTP Error Rate by Status Code" "$datasource"
        [ mkTarget ("rate(booking_service_http_request_duration_seconds_count{status=~"
                      ++ q "4.." ++ "}[5m])") "4xx - {{status}}";
          mkTarget ("rate(booking_service_http_request_duration_seconds_count{status=~"
                      ++ q "5.." ++ "}[5m])") "5xx - {{status}}" ]
        (mkYAxes (mkYAxis OPS_FORMAT None None));
      Graph "Error Rate Percentage" "$datasource"
        [ mkTarget ("rate(booking_service_http_request_duration_seconds_count{status=~"
                      ++ q "[45].."
                      ++ "}[5m]) / rate(booking_service_http_request_duration_seconds_count[5m]) * 100")
            "Error %" ]
        (mkYAxes (mkYAxis "percent" (Some (Int 0)) (Some (Int 100)))) ].

Definition system_row : Row :=
  mkRow "System Metrics"
    [ Graph "Go Goroutines" "$datasource"
        [ mkTarget "go_goroutines" "Goroutines" ]
        (mkYAxes (mkYAxis SHORT_FORMAT None None));
      Graph "Memory Usage" "$datasource"
        [ mkTarget "go_memstats_alloc_bytes" "Allocated";
          mkTarget "go_memstats_heap_alloc_bytes" "Heap" ]
        (mkYAxes (mkYAxis "bytes" None None)) ].

(** The [Dashboard(...)] expression, before [.auto_panel_ids()]. *)
Definition dashboard_literal : Dashboard :=
  mkDashboard
    "Booking Service Monitoring"
    "Comprehensive monitoring dashboard for the Booking Service"
    [ "booking-service"; "events"; "bookings" ]
    "browser"
    "30s"
    (mkTemplating [ mkTemplate "datasource" "Data Source" "datasource" "prometheus" ])
    [ overview_row; business_row; http_row; errors_row; system_row ].

(** ** Panel numbering *)

(** The panel [p] with identifier [n]. *)
Definition set_id (n : Z) (p : Panel) : Panel :=
  mkPanel (Some n) (panel_title p) (dataSource p) (targets p) (kind p).

(** Modelled from the spec: the numbering of one row's panels, part of
    [Dashboard.auto_panel_ids] of the dashboard library, which is not part of
    the repository.  Panels are numbered from [next] in list order; the next
    free number is returned. *)
Fixpoint number_panels (next : Z) (ps : list Panel) : list Panel * Z :=
  match ps with
  | [] => ([], next)
  | p :: ps' =>
      let '(ps'', next') := number_panels (next + 1) ps' in
      (set_id next p :: ps'', next')
  end.

(** Modelled from the spec: the walk over the rows, part of
    [Dashboard.auto_panel_ids] of the dashboard library, which is not part of
    the repository.  Rows are taken in order, each continuing where the
    previous one stopped. *)
Fixpoint number_rows (next : Z) (rs : list Row) : list Row * Z :=
  match rs with
  | [] => ([], next)
  | r :: rs' =>
      let '(ps, next') := number_panels next (panels r) in
      let '(rs'', next'') := number_rows next' rs' in
      (mkRow (row_title r) ps :: rs'', next'')
  end.

(** Modelled from the spec: [Dashboard.auto_panel_ids] of the dashboard
    library, which is not part of the repository, for an arbitrary base.  A
    finalization step that walks all panels in row-then-panel order and
    gives each a sequential integer identifier starting from [base]; the
    rest of the dashboard is unchanged. *)
Definition auto_panel_ids_from (base : Z) (d : Dashboard) : Dashboard :=
  mkDashboard (title d) (description d) (tags d) (timezone d) (refresh d)
    (templating d) (fst (number_rows base (rows d))).

(** Modelled from the spec: the fixed base of the numbering, 1. *)
Definition first_panel_id : Z := 1.

(** Modelled from the spec: [Dashboard.auto_panel_ids], the numbering from
    the fixed base. *)
Definition auto_panel_ids (d : Dashboard) : Dashboard :=
  auto_panel_ids_from first_panel_id d.

(** Lines 31-266: the literal, then [.auto_panel_ids()]. *)
Definition create_dashboard : Dashboard :=
  auto_panel_ids dashboard_literal.

(** All panels of a dashboard, row by row. *)
Definition all_panels (d : Dashboard) : list Panel :=
  flat_map panels (rows d).

Definition all_targets (d : Dashboard) : list Target :=
  flat_map targets (all_panels d).

(** The consecutive integers [base], [base + 1], ... ([n] of them). *)
Fixpoint zseq (base : Z) (n : nat) : list Z :=
  match n with
  | O => []
  | S k => base :: zseq (base + 1) k
  end.

(** The panels [ps] with the consecutive identifiers from [base] on, in
    order. *)
Definition renumber (base : Z) (ps : list Panel) : list Panel :=
  map (fun np => set_id (fst np) (snd np))
      (combine (zseq base (List.length ps)) ps).

(** ** Errors *)

(** The exceptions the pipeline can raise. *)
Inductive exn : Type :=
| TypeError
| ValueError
| JSONDecodeError.

(** A value, or an exception on its way up. *)
Inductive result (A : Type) : Type :=
| Ok (a : A)
| Raise (e : exn).

Arguments Ok {A} a.
Arguments Raise {A} e.

Definition bind {A B : Type} (r : result A) (k : A -> result B) : result B :=
  match r with
  | Ok a => k a
  | Raise e => Raise e
  end.

Notation "x <- r ;; k" := (bind r (fun x => k))
  (at level 61, r at next level, right associativity).

(** [sequence] runs a list of computations left to right and stops at the
    first exception. *)
Fixpoint sequence {A : Type} (l : list (result A)) : result (list A) :=
  match l with
  | [] => Ok []
  | r :: l' => x <- r ;; xs <- sequence l' ;; Ok (x :: xs)
  end.

(** ** JSON values *)

#[local] Unset Elimination Schemes.

(** What [json.loads] returns and [json.dumps] accepts here: [None], [bool],
    [int], [str], [list] and [dict].  A [dict] keeps insertion order, so it is
    an association list; its keys are pairwise distinct (see [wf]). *)
Inductive json : Type :=
| JNull
| JBool (b : bool)
| JInt (z : Z)
| JStr (s : string)
| JArr (items : list json)
| JObj (members : list (string * json)).

#[local] Set Elimination Schemes.

(** [d[k] = v] on an insertion-ordered dict. *)
Fixpoint dict_set (k : string) (v : json) (m : list (string * json))
  : list (string * json) :=
  match m with
  | [] => [(k, v)]
  | (k', v') :: m' =>
      if String.eqb k k' then (k, v) :: m' else (k', v') :: dict_set k v m'
  end.

(** The dict built from key-value pairs in reading order: a repeated key
    keeps its first position and its last value. *)
Definition dict_of_pairs (l : list (string * json)) : list (string * json) :=
  fold_left (fun m kv => dict_set (fst kv) (snd kv) m) l [].

(** [d.get(k)]. *)
Fixpoint dict_get (k : string) (m : list (string * json)) : option json :=
  match m with
  | [] => None
  | (k', v) :: m' => if String.eqb k k' then Some v else dict_get k m'
  end.

(** [j.get(k)] on a value that may not be a dict. *)
Definition get (k : string) (j : json) : option json :=
  match j with
  | JObj m => dict_get k m
  | _ => None
  end.

(** Representation invariant: no dict has a repeated key. *)
Fixpoint wf (j : json) : Prop :=
  match j with
  | JArr l => (fix all (l : list json) : Prop :=
                 match l with
                 | [] => True
                 | x :: l' => wf x /\ all l'
                 end) l
  | JObj m => NoDup (map fst m) /\
              (fix all (m : list (string * json)) : Prop :=
                 match m with
                 | [] => True
                 | (_, v) :: m' => wf v /\ all m'
                 end) m
  | _ => True
  end.

(** Induction over values, with the induction hypothesis for every element
    of a list and every member of a dict. *)
Section json_induction.

Variable P : json -> Prop.
Hypothesis Hnull : P JNull.
Hypothesis Hbool : forall b, P (JBool b).
Hypothesis Hint : forall z, P (JInt z).
Hypothesis Hstr : forall s, P (JStr s).
Hypothesis Harr : forall l, Forall P l -> P (JArr l).
Hypothesis Hobj : forall m, Forall (fun kv => P (snd kv)) m -> P (JObj m).

Fixpoint json_ind (j : json) : P j :=
  match j with
  | JNull => Hnull
  | JBool b => Hbool b
  | JInt z => Hint z
  | JStr s => Hstr s
  | JArr l =>
      Harr l
        ((fix all (l : list json) : Forall P l :=
            match l with
            | [] => Forall_nil P
            | x :: l' => Forall_cons x (json_ind x) (all l')
            end) l)
  | JObj m =>
      Hobj m
        ((fix all (m : list (string * json))
            : Forall (fun kv => P (snd kv)) m :=
            match m with
            | [] => Forall_nil _
            | kv :: m' => Forall_cons kv (json_ind (snd kv)) (all m')
            end) m)
  end.

End json_induction.

(** The number of parser calls a value costs, which bounds the fuel. *)
Fixpoint size (j : json) : nat :=
  match j with
  | JArr l => S ((fix sizes (l : list json) : nat :=
                    match l with
                    | [] => O
                    | x :: l' => S (size x + sizes l')
                    end) l)
  | JObj m => S ((fix sizes (m : list (string * json)) : nat :=
                    match m with
                    | [] => O
                    | (_, v) :: m' => S (size v + sizes m')
                    end) m)
  | _ => 1%nat
  end.

(** The cost of the elements of a list, and of the members of a dict. *)
Fixpoint sizes (l : list json) : nat :=
  match l with
  | [] => O
  | x :: l' => S (size x + sizes l')
  end.

Fixpoint member_sizes (m : list (string * json)) : nat :=
  match m with
  | [] => O
  | (_, v) :: m' => S (size v + member_sizes m')
  end.

(** Decides [NoDup] on keys. *)
Fixpoint nodupb (l : list string) : bool :=
  match l with
  | [] => true
  | k :: l' => negb (existsb (String.eqb k) l') && nodupb l'
  end.

(** ** json.dumps with [indent] *)

Definition backslash : ascii := ascii_of_nat 92.

Definition hex_digit (n : N) : ascii :=
  ascii_of_N (if (n <? 10)%N then 48 + n else 87 + n)%N.

(** The escape table of the ASCII-only encoder: the named escapes, then
    [\u00XX] for everything outside the printable range. *)
Definition escape_char (c : ascii) : string :=
  let n := N_of_ascii c in
  if (n =? 34)%N then String backslash DQ
  else if (n =? 92)%N then String backslash (String backslash "")
  else if (n =? 10)%N then String backslash "n"
  else if (n =? 13)%N then String backslash "r"
  else if (n =? 9)%N then String backslash "t"
  else if (n =? 12)%N then String backslash "f"
  else if (n =? 8)%N then String backslash "b"
  else if ((n <? 32) || (126 <? n))%N then
    String backslash
      (String "u" (String "0" (String "0"
        (String (hex_digit (n / 16)) (String (hex_digit (n mod 16)) "")))))
  else String c "".

Fixpoint escape (s : string) : string :=
  match s with
  | EmptyString => ""
  | String c s' => escape_char c ++ escape s'
  end.

Definition encode_basestring_ascii (s : string) : string :=
  DQ ++ escape s ++ DQ.

Definition encode_int (z : Z) : string :=
  NilZero.string_of_int (Z.to_int z).

Fixpoint spaces (n : nat) : string :=
  match n with
  | O => ""
  | S k => String " " (spaces k)
  end.

Definition newline_indent (indent level : nat) : string :=
  String newline (spaces (indent * level)).

Fixpoint encode (indent level : nat) (j : json) {struct j} : string :=
  match j with
  | JNull => "null"
  | JBool true => "true"
  | JBool false => "false"
  | JInt z => encode_int z
  | JStr s => encode_basestring_ascii s
  | JArr [] => "[]"
  | JArr ((_ :: _) as l) =>
      "[" ++
      (fix items (l : list json) : string :=
         match l with
         | [] => ""
         | x :: l' =>
             newline_indent indent (S level) ++ encode indent (S level) x ++
             match l' with
             | [] => ""
             | _ :: _ => "," ++ items l'
             end
         end) l
      ++ newline_indent indent level ++ "]"
  | JObj [] => "{}"
  | JObj ((_ :: _) as m) =>
      "{" ++
      (fix members (m : list (string * json)) : string :=
         match m with
         | [] => ""
         | (k, v) :: m' =>
             newline_indent indent (S level) ++ encode_basestring_ascii k ++
             ": " ++ encode indent (S level) v ++
             match m' with
             | [] => ""
             | _ :: _ => "," ++ members m'
             end
         end) m
      ++ newline_indent indent level ++ "}"
  end.

(** [json.dumps(obj, indent=indent)]. *)
Definition json_dumps (indent : nat) (j : json) : string :=
  encode indent 0 j.

(** The encoder's container loops as functions of their own. *)
Fixpoint encode_items (indent level : nat) (l : list json) : string :=
  match l with
  | [] => ""
  | x :: l' =>
      newline_indent indent level ++ encode indent level x ++
      match l' with
      | [] => ""
      | _ :: _ => "," ++ encode_items indent level l'
      end
  end.

Fixpoint encode_members (indent level : nat) (m : list (string * json)) : string :=
  match m with
  | [] => ""
  | (k, v) :: m' =>
      newline_indent indent level ++ encode_basestring_ascii k ++
      ": " ++ encode indent level v ++
      match m' with
      | [] => ""
      | _ :: _ => "," ++ encode_members indent level m'
      end
  end.

Definition items_rest (indent level : nat) (l : list json) : string :=
  match l with
  | [] => ""
  | _ :: _ => "," ++ encode_items indent level l
  end.

Definition members_rest (indent level : nat) (m : list (string * json)) : string :=
  match m with
  | [] => ""
  | _ :: _ => "," ++ encode_members indent level m
  end.

(** ** json.loads *)

Definition is_ws (c : ascii) : bool :=
  let n := N_of_ascii c in
  ((n =? 32) || (n =? 9) || (n =? 10) || (n =? 13))%N.

Fixpoint skip_ws (s : string) : string :=
  match s with
  | EmptyString => ""
  | String c s' => if is_ws c then skip_ws s' else s
  end.

Definition is_digit (c : ascii) : bool :=
  let n := N_of_ascii c in ((48 <=? n) && (n <=? 57))%N.

Definition hex_value (c : ascii) : option N :=
  let n := N_of_ascii c in
  if ((48 <=? n) && (n <=? 57))%N then Some (n - 48)%N
  else if ((97 <=? n) && (n <=? 102))%N then Some (n - 87)%N
  else if ((65 <=? n) && (n <=? 70))%N then Some (n - 55)%N
  else None.

Definition unescape (c : ascii) : option ascii :=
  let n := N_of_ascii c in
  if (n =? 34)%N then Some dquote
  else if (n =? 92)%N then Some backslash
  else if (n =? 47)%N then Some "/"%char
  else if (n =? 110)%N then Some newline
  else if (n =? 114)%N then Some (ascii_of_nat 13)
  else if (n =? 116)%N then Some (ascii_of_nat 9)
  else if (n =? 102)%N then Some (ascii_of_nat 12)
  else if (n =? 98)%N then Some (ascii_of_nat 8)
  else None.

Definition cons_char (c : ascii) (r : option (string * string))
  : option (string * string) :=
  match r with
  | Some (s, rest) => Some (String c s, rest)
  | None => None
  end.

(** The body of a string literal, after its opening quote, up to and
    including the closing quote.  Characters are code points below 256, so
    a [\uXXXX] escape of a larger code point is outside the model; raw
    control characters are rejected as the strict decoder does. *)
Fixpoint scan_string (s : string) : option (string * string) :=
  match s with
  | EmptyString => None
  | String c s' =>
      if Ascii.eqb c dquote then Some ("", s')
      else if Ascii.eqb c backslash then
        match s' with
        | EmptyString => None
        | String e s'' =>
            if Ascii.eqb e "u" then
              match s'' with
              | String h1 (String h2 (String h3 (String h4 s3))) =>
                  match hex_value h1, hex_value h2, hex_value h3, hex_value h4 with
                  | Some a, Some b, Some c3, Some d =>
                      if ((a =? 0) && (b =? 0))%N
                      then cons_char (ascii_of_N (16 * c3 + d)) (scan_string s3)
                      else None
                  | _, _, _, _ => None
                  end
              | _ => None
              end
            else
              match unescape e with
              | Some ch => cons_char ch (scan_string s'')
              | None => None
              end
        end
      else if (N_of_ascii c <? 32)%N then None
      else cons_char c (scan_string s')
  end.

Fixpoint span_digits (s : string) : string * string :=
  match s with
  | EmptyString => ("", "")
  | String c s' =>
      if is_digit c
      then let '(ds, r) := span_digits s' in (String c ds, r)
      else ("", s)
  end.

(** Whether the text after an integer part continues a number: another
    digit, or the fraction or exponent of a float. *)
Definition continues_number (s : string) : bool :=
  match s with
  | EmptyString => false
  | String c _ =>
      is_digit c || Ascii.eqb c "." || Ascii.eqb c "e" || Ascii.eqb c "E"
  end.

(** An integer literal: an optional minus sign, then [0] or a digit string
    without a leading zero.  Floats are outside the model and rejected. *)
Definition parse_int (s : string) : option (Z * string) :=
  let '(neg, s1) :=
    match s with
    | String c s' => if Ascii.eqb c "-" then (true, s') else (false, s)
    | EmptyString => (false, s)
    end in
  let '(ds, r) := span_digits s1 in
  match ds with
  | EmptyString => None
  | String d ds' =>
      if Ascii.eqb d "0" && negb (String.eqb ds' "") then None
      else if continues_number r then None
      else
        match NilEmpty.uint_of_string ds with
        | Some u => Some (if neg then - Z.of_uint u else Z.of_uint u, r)
        | None => None
        end
  end.

Fixpoint strip_prefix (p s : string) : option string :=
  match p, s with
  | EmptyString, _ => Some s
  | String a p', String b s' => if Ascii.eqb a b then strip_prefix p' s' else None
  | String _ _, EmptyString => None
  end.

Definition keyword (p : string) (v : json) (s : string) : option (json * string) :=
  match strip_prefix p s with
  | Some r => Some (v, r)
  | None => None
  end.

(** Recursive descent, one unit of [fuel] per call.  [parse_value] expects
    its input to start at the value; [parse_items] and [parse_members]
    parse what follows an opening bracket of a non-empty container, through
    the closing bracket.  The float constants [NaN], [Infinity] and
    [-Infinity] are, like all floats, outside the model and rejected. *)
Fixpoint parse_value (fuel : nat) (s : string) {struct fuel}
  : option (json * string) :=
  match fuel with
  | O => None
  | S f =>
      match s with
      | EmptyString => None
      | String c s' =>
          if Ascii.eqb c dquote then
            match scan_string s' with
            | Some (str, r) => Some (JStr str, r)
            | None => None
            end
          else if Ascii.eqb c "[" then
            match skip_ws s' with
            | EmptyString => None
            | String c1 r1 as s1 =>
                if Ascii.eqb c1 "]" then Some (JArr [], r1)
                else
                  match parse_items f s1 with
                  | Some (l, r) => Some (JArr l, r)
                  | None => None
                  end
            end
          else if Ascii.eqb c "{" then
            match skip_ws s' with
            | EmptyString => None
            | String c1 r1 as s1 =>
                if Ascii.eqb c1 "}" then Some (JObj [], r1)
                else
                  match parse_members f s1 with
                  | Some (l, r) => Some (JObj (dict_of_pairs l), r)
                  | None => None
                  end
            end
          else if Ascii.eqb c "t" then keyword "rue" (JBool true) s'
          else if Ascii.eqb c "f" then keyword "alse" (JBool false) s'
          else if Ascii.eqb c "n" then keyword "ull" JNull s'
          else
            match parse_int s with
            | Some (z, r) => Some (JInt z, r)
            | None => None
            end
      end
  end

with parse_items (fuel : nat) (s : string) {struct fuel}
  : option (list json * string) :=
  match fuel with
  | O => None
  | S f =>
      match parse_value f s with
      | None => None
      | Some (v, r) =>
          match skip_ws r with
          | EmptyString => None
          | String c r' =>
              if Ascii.eqb c "," then
                match parse_items f (skip_ws r') with
                | Some (l, r'') => Some (v :: l, r'')
                | None => None
                end
              else if Ascii.eqb c "]" then Some ([v], r')
              else None
          end
      end
  end

with parse_members (fuel : nat) (s : string) {struct fuel}
  : option (list (string * json) * string) :=
  match fuel with
  | O => None
  | S f =>
      match s with
      | EmptyString => None
      | String c s' =>
          if Ascii.eqb c dquote then
            match scan_string s' with
            | None => None
            | Some (k, r) =>
                match skip_ws r with
                | EmptyString => None
                | String c1 r1 =>
                    if Ascii.eqb c1 ":" then
                      match parse_value f (skip_ws r1) with
                      | None => None
                      | Some (v, r2) =>
                          match skip_ws r2 with
                          | EmptyString => None
                          | String c2 r3 =>
                              if Ascii.eqb c2 "," then
                                match parse_members f (skip_ws r3) with
                                | Some (l, r4) => Some ((k, v) :: l, r4)
                                | None => None
                                end
                              else if Ascii.eqb c2 "}" then Some ([(k, v)], r3)
                              else None
                          end
                      end
                    else None
                end
            end
          else None
      end
  end.

(** [json.loads(s)]: one value, with white space allowed around it. *)
Definition json_loads (s : string) : result json :=
  match parse_value (String.length s) (skip_ws s) with
  | Some (j, r) =>
      match skip_ws r with
      | EmptyString => Ok j
      | String _ _ => Raise JSONDecodeError
      end
  | None => Raise JSONDecodeError
  end.


(** [starts_value s]: [s] begins with a character that is neither white
    space nor a closing bracket, so [skip_ws] leaves it alone and a
    container parser takes it for a first element. *)
Definition starts_value (s : string) : bool :=
  match s with
  | EmptyString => false
  | String c _ => negb (is_ws c || Ascii.eqb c "]" || Ascii.eqb c "}")
  end.

Fixpoint all_digits (s : string) : bool :=
  match s with
  | EmptyString => true
  | String c s' => is_digit c && all_digits s'
  end.

(** [roundtrips j]: whatever the indentation, the nesting level and the
    text that follows, the parser reads [j] back from its encoding and
    stops right after it. *)
Definition roundtrips (j : json) : Prop :=
  forall (indent level fuel : nat) (rest : string),
    wf j -> (size j <= fuel)%nat -> continues_number rest = false ->
    parse_value fuel (encode indent level j ++ rest) = Some (j, rest).

(** ** Serializing the dashboard tree *)

(** Modelled from the spec: a list of strings in the tree-shaped JSON
    representation built by the dashboard library, which is not part of the
    repository. *)
Definition strings_json (l : list string) : json := JArr (map JStr l).

(** Modelled from the spec: the JSON representation of a target, built by
    the dashboard library, which is not part of the repository: its query
    expression and its legend. *)
Definition target_json (t : Target) : json :=
  JObj [ ("expr", JStr (expr t)); ("legendFormat", JStr (legendFormat t)) ].

(** Modelled from the spec: the JSON representation of a number, built by
    the dashboard library, which is not part of the repository.  A
    non-finite number has none. *)
Definition number_json (n : number) : result json :=
  match n with
  | Int z => Ok (JInt z)
  | NaN | Infinity | NegInfinity => Raise ValueError
  end.

(** Modelled from the spec: an optional axis bound in the representation
    built by the dashboard library; an absent bound is [null]. *)
Definition bound_json (b : option number) : result json :=
  match b with
  | None => Ok JNull
  | Some n => number_json n
  end.

(** Modelled from the spec: the JSON representation of an axis, built by
    the dashboard library, which is not part of the repository. *)
Definition yaxis_json (a : YAxis) : result json :=
  lo <- bound_json (min a) ;;
  hi <- bound_json (max a) ;;
  Ok (JObj [ ("format", JStr (format a)); ("min", lo); ("max", hi) ]).

(** Modelled from the spec: the JSON representation of the axes of a
    graph, built by the dashboard library. *)
Definition yaxes_json (a : YAxes) : result json :=
  l <- yaxis_json (left a) ;;
  Ok (JObj [ ("left", l) ]).

(** Modelled from the spec: a panel identifier in the representation built
    by the dashboard library; a panel that was not numbered has [null]. *)
Definition id_json (i : option Z) : json :=
  match i with
  | None => JNull
  | Some n => JInt n
  end.

(** Modelled from the spec: the JSON representation of a panel, built by
    the dashboard library, which is not part of the repository.  A single
    serialization function dispatching on the panel variant; a variant it
    does not recognize is a type error. *)
Definition panel_json (p : Panel) : result json :=
  let common (ty : string) :=
    [ ("id", id_json (id p)); ("type", JStr ty); ("title", JStr (panel_title p));
      ("dataSource", JStr (dataSource p));
      ("targets", JArr (map target_json (targets p))) ] in
  match kind p with
  | KSingleStat valueName fmt sparklineShow =>
      Ok (JObj (common "singlestat" ++
                [ ("valueName", JStr valueName); ("format", JStr fmt);
                  ("sparklineShow", JBool sparklineShow) ]))
  | KGraph yAxes =>
      y <- yaxes_json yAxes ;;
      Ok (JObj (common "graph" ++ [ ("yAxes", y) ]))
  | KUnrecognized _ => Raise TypeError
  end.

(** Modelled from the spec: the JSON representation of a row, built by the
    dashboard library: its title and its panels, in order. *)
Definition row_json (r : Row) : result json :=
  ps <- sequence (map panel_json (panels r)) ;;
  Ok (JObj [ ("title", JStr (row_title r)); ("panels", JArr ps) ]).

(** Modelled from the spec: the JSON representation of a template
    variable, built by the dashboard library. *)
Definition template_json (t : Template) : json :=
  JObj [ ("name", JStr (name t)); ("label", JStr (label t));
         ("type", JStr (type t)); ("query", JStr (query t)) ].

(** Modelled from the spec: the JSON representation of the template
    variables of a dashboard, built by the dashboard library. *)
Definition templating_json (t : Templating) : json :=
  JObj [ ("list", JArr (map template_json (templates t))) ].

(** Modelled from the spec: the tree-shaped JSON representation of a
    dashboard and its descendants, built by the dashboard library, which is
    not part of the repository.  Fields carry the names of the keyword
    arguments the script passes; a panel also carries its identifier and its
    variant.  It fails on a field that is not representable: a non-finite
    number or an unrecognized panel variant. *)
Definition to_json_data (d : Dashboard) : result json :=
  rs <- sequence (map row_json (rows d)) ;;
  Ok (JObj [ ("title", JStr (title d));
             ("description", JStr (description d));
             ("tags", strings_json (tags d));
             ("timezone", JStr (timezone d));
             ("refresh", JStr (refresh d));
             ("templating", templating_json (templating d));
             ("rows", JArr rs) ]).

(** Modelled from the spec: [_gen_json_from_panels] of the dashboard
    library, which is not part of the repository.  It takes a completed
    dashboard and produces the text of its JSON representation. *)
Definition _gen_json_from_panels (d : Dashboard) : result string :=
  j <- to_json_data d ;;
  Ok (json_dumps 2 j).

(** ** The main block (lines 269-282) *)

(** The upload envelope built at lines 276-280. *)
Definition dashboard_json (dashboard : json) : json :=
  JObj [ ("dashboard", dashboard); ("overwrite", JBool true); ("inputs", JArr []) ].

(** [print(s)] appends [s] and a line feed to standard output. *)
Definition print (s : string) (out : string) : string :=
  out ++ s ++ LF.

(** What the invoking process observes. *)
Record process : Type := mkProcess {
  stdout : string;
  exit_code : Z
}.

Section main_block.

(** The serializer imported at line 271, whatever it computes. *)
Variable gen : Dashboard -> result string.

(** Lines 276-282 up to the call of [print]: the text that will be written,
    or the exception that escapes. *)
Definition document_with (dashboard : Dashboard) : result string :=
  text <- gen dashboard ;;
  tree <- json_loads text ;;
  Ok (json_dumps 2 (dashboard_json tree)).

(** The main block run on a given dashboard value: an uncaught exception
    ends the interpreter with status 1, before anything was printed. *)
Definition run_with (dashboard : Dashboard) : process :=
  match document_with dashboard with
  | Ok s => mkProcess (print s "") 0
  | Raise _ => mkProcess "" 1
  end.

End main_block.

(** The main block with the serializer as modelled. *)
Definition document : Dashboard -> result string :=
  document_with _gen_json_from_panels.

Definition run : Dashboard -> process :=
  run_with _gen_json_from_panels.

(** The script, run as a program. *)
Definition main : process := run create_dashboard.

(** ** The script as a transition system *)

(** What a process could consult from its surroundings.  No transition of
    the script reads any of it. *)
Record environment : Type := mkEnvironment {
  argv : list string;
  environ : list (string * string);
  clock : Z;
  entropy : Z
}.

(** Where the main block stands, with the value it has just computed. *)
Inductive control : Type :=
| Start
| HasDashboard (dashboard : Dashboard)
| HasText (text : string)
| HasEnvelope (envelope : json)
| HasOutput (s : string)
| Exited (status : Z).

(** A process: its surroundings, where it stands, and what it has written
    to standard output so far. *)
Record state : Type := mkState {
  env : environment;
  at_control : control;
  out : string
}.

Section transitions.

Variable gen : Dashboard -> result string.

(** One statement of the main block: line 273 builds the dashboard, line
    277 serializes it and decodes the text, lines 276-280 wrap the tree,
    line 282 encodes the envelope and prints it.  An exception ends the
    process with status 1. *)
Inductive step : state -> state -> Prop :=
| step_create e o :
    step (mkState e Start o) (mkState e (HasDashboard create_dashboard) o)
| step_gen e o d text :
    gen d = Ok text ->
    step (mkState e (HasDashboard d) o) (mkState e (HasText text) o)
| step_gen_raise e o d x :
    gen d = Raise x ->
    step (mkState e (HasDashboard d) o) (mkState e (Exited 1) o)
| step_loads e o text tree :
    json_loads text = Ok tree ->
    step (mkState e (HasText text) o)
         (mkState e (HasEnvelope (dashboard_json tree)) o)
| step_loads_raise e o text x :
    json_loads text = Raise x ->
    step (mkState e (HasText text) o) (mkState e (Exited 1) o)
| step_dumps e o j :
    step (mkState e (HasEnvelope j) o) (mkState e (HasOutput (json_dumps 2 j)) o)
| step_print e o s :
    step (mkState e (HasOutput s) o) (mkState e (Exited 0) (print s o)).

(** Zero or more transitions. *)
Inductive steps : state -> state -> Prop :=
| steps_refl s : steps s s
| steps_step s s' s'' : step s s' -> steps s' s'' -> steps s s''.

End transitions.

(** The process has exited. *)
Definition halted (s : state) : Prop :=
  exists status, at_control s = Exited status.

(** A fresh process: nothing written yet. *)
Definition initial (e : environment) : state := mkState e Start "".

(** A fresh process that already holds a dashboard value. *)
Definition holding (e : environment) (d : Dashboard) : state :=
  mkState e (HasDashboard d) "".

(** ** Representable trees *)

Definition finite (n : number) : bool :=
  match n with
  | Int _ => true
  | NaN | Infinity | NegInfinity => false
  end.

Definition bound_representable (b : option number) : bool :=
  match b with
  | None => true
  | Some n => finite n
  end.

Definition representable (p : Panel) : bool :=
  match kind p with
  | KSingleStat _ _ _ => true
  | KGraph y =>
      bound_representable (min (left y)) && bound_representable (max (left y))
  | KUnrecognized _ => false
  end.

(** Every field of the tree is representable in the output format. *)
Definition serializable (d : Dashboard) : bool :=
  forallb representable (all_panels d).

(** ** Reading the emitted document *)

(** All the values of a list of options, if none is missing. *)
Fixpoint those {A : Type} (l : list (option A)) : option (list A) :=
  match l with
  | [] => Some []
  | None :: _ => None
  | Some a :: l' =>
      match those l' with
      | Some r => Some (a :: r)
      | None => None
      end
  end.

(** [j[k1][k2]...] for the keys of [path]. *)
Definition get_path (path : list string) (j : json) : option json :=
  fold_left (fun o k => match o with Some v => get k v | None => None end)
            path (Some j).

(** The rows of an emitted document: each row's title and its number of
    panels. *)
Definition document_rows (doc : json) : option (list (json * nat)) :=
  match get_path ["dashboard"; "rows"] doc with
  | Some (JArr rs) =>
      those (map (fun r =>
                    match get "title" r, get "panels" r with
                    | Some t, Some (JArr ps) => Some (t, List.length ps)
                    | _, _ => None
                    end) rs)
  | _ => None
  end.

(** The identifiers of the panels of an emitted document, row by row. *)
Definition document_panel_ids (doc : json) : option (list json) :=
  match get_path ["dashboard"; "rows"] doc with
  | Some (JArr rs) =>
      match those (map (fun r =>
                          match get "panels" r with
                          | Some (JArr ps) => those (map (get "id") ps)
                          | _ => None
                          end) rs) with
      | Some l => Some (concat l)
      | None => None
      end
  | _ => None
  end.

(** ** Text layout *)

(** Where a scan of the text stands: at the start of a line after [k]
    spaces, on a line that must ([closing = true]) or must not begin with a
    closing bracket; inside a line; right after an opening bracket, a comma
    or a colon; inside a string literal, possibly after a backslash. *)
Inductive mode : Type :=
| LineStart (closing : bool) (k : nat)
| Inline
| AfterOpen
| AfterComma
| AfterColon
| InString
| Escaped.

Definition opens (c : ascii) : bool := Ascii.eqb c "[" || Ascii.eqb c "{".

Definition closes (c : ascii) : bool := Ascii.eqb c "]" || Ascii.eqb c "}".

(** One character inside a line and outside a string literal: the new
    bracket depth and mode, or [None] where the layout forbids it (a closing
    bracket or a space in the middle of a line). *)
Definition token (c : ascii) (depth : nat) : option (nat * mode) :=
  if Ascii.eqb c newline then Some (depth, LineStart true 0)
  else if Ascii.eqb c dquote then Some (depth, InString)
  else if opens c then Some (S depth, AfterOpen)
  else if closes c then None
  else if Ascii.eqb c "," then Some (depth, AfterComma)
  else if Ascii.eqb c ":" then Some (depth, AfterColon)
  else if Ascii.eqb c " " then None
  else Some (depth, Inline).

(** [laid_out indent s depth m]: from bracket depth [depth] and mode [m],
    the text [s] is laid out as a pretty-printer with [indent] spaces per
    level does: every line starts with [indent] spaces per open bracket, the
    elements of a non-empty container stand one per line, a closing bracket
    starts its line, a comma ends its line, a colon is followed by one
    space, and there is no other white space outside string literals. *)
Fixpoint laid_out (indent : nat) (s : string) (depth : nat) (m : mode) : bool :=
  match s with
  | EmptyString => true
  | String c s' =>
      match m with
      | InString =>
          if Ascii.eqb c backslash then laid_out indent s' depth Escaped
          else if Ascii.eqb c dquote then laid_out indent s' depth Inline
          else laid_out indent s' depth InString
      | Escaped => laid_out indent s' depth InString
      | AfterComma =>
          Ascii.eqb c newline && laid_out indent s' depth (LineStart false 0)
      | AfterColon =>
          Ascii.eqb c " " && laid_out indent s' depth Inline
      | AfterOpen =>
          if Ascii.eqb c newline then laid_out indent s' depth (LineStart false 0)
          else closes c && laid_out indent s' (Nat.pred depth) Inline
      | LineStart closing k =>
          if Ascii.eqb c " " then laid_out indent s' depth (LineStart closing (S k))
          else if closes c then
            closing && Nat.eqb k (indent * Nat.pred depth) &&
            laid_out indent s' (Nat.pred depth) Inline
          else
            negb closing && negb (Ascii.eqb c newline) &&
            Nat.eqb k (indent * depth) &&
            match token c depth with
            | Some (d, m') => laid_out indent s' d m'
            | None => false
            end
      | Inline =>
          match token c depth with
          | Some (d, m') => laid_out indent s' d m'
          | None => false
          end
      end
  end.

(** The whole text is laid out with [indent] spaces per level. *)
Definition pretty (indent : nat) (s : string) : bool :=
  laid_out indent s 0 (LineStart false 0).

(** [flows j]: scanned inside a line at its own nesting level, the
    encoding of [j] is accepted and leaves the scan inside a line at the
    same depth. *)
Definition flows (j : json) : Prop :=
  forall (indent level : nat) (rest : string),
    laid_out indent (encode indent level j ++ rest) level Inline =
    laid_out indent rest level Inline.

(** The last character of [s] is a line feed. *)
Definition ends_with_newline (s : string) : bool :=
  match String.get (Nat.pred (String.length s)) s with
  | Some c => Ascii.eqb c newline
  | None => false
  end.

(** ** Example trees and surroundings *)

(** A dashboard whose second row has a graph with a non-finite upper bound
    on its axis. *)
Definition nan_axis_dashboard : Dashboard :=
  mkDashboard (title dashboard_literal) (description dashboard_literal)
    (tags dashboard_literal) (timezone dashboard_literal)
    (refresh dashboard_literal) (templating dashboard_literal)
    [ overview_row;
      mkRow "System Metrics"
        [ Graph "Go Goroutines" "$datasource"
            [ mkTarget "go_goroutines" "Goroutines" ]
            (mkYAxes (mkYAxis SHORT_FORMAT None (Some NaN))) ] ].

(** A dashboard whose second row holds an object of a class the serializer
    does not know. *)
Definition unknown_panel_dashboard : Dashboard :=
  mkDashboard (title dashboard_literal) (description dashboard_literal)
    (tags dashboard_literal) (timezone dashboard_literal)
    (refresh dashboard_literal) (templating dashboard_literal)
    [ overview_row;
      mkRow "System Metrics"
        [ mkPanel None "Notes" "$datasource" [] (KUnrecognized "Text") ] ].

(** Two surroundings that differ in every component. *)
Definition quiet_environment : environment :=
  mkEnvironment [] [] 0 0.

Definition busy_environment : environment :=
  mkEnvironment [ "booking_service_dashboard.py"; "--verbose" ]
                [ ("TZ", "UTC"); ("PYTHONHASHSEED", "7") ]
                1700000000 42.

(** ** Character classes and further examples *)

(** A printable ASCII character, from space to tilde. *)
Definition printable (c : ascii) : bool :=
  let n := N_of_ascii c in ((32 <=? n) && (n <=? 126))%N.

(** Every character of [s] satisfies [p]. *)
Fixpoint all_chars (p : ascii -> bool) (s : string) : bool :=
  match s with
  | EmptyString => true
  | String c s' => p c && all_chars p s'
  end.

(** A character of an ASCII-only document: printable, or a line feed. *)
Definition document_char (c : ascii) : bool :=
  printable c || Ascii.eqb c newline.

(** A serializer that returns text that is not JSON. *)
Definition broken_gen (d : Dashboard) : result string :=
  Ok "<html>".

(** A serializer that lays its text out differently: four spaces per level
    and a line feed at the end. *)
Definition wide_gen (d : Dashboard) : result string :=
  j <- to_json_data d ;;
  Ok (json_dumps 4 j ++ LF).

(** A small value with every kind of node. *)
Definition sample_value : json :=
  JObj [ ("name", JStr "x"); ("ids", JArr [ JInt 1; JInt (-20) ]);
         ("on", JBool true); ("none", JNull); ("empty", JObj []) ].

(** A list or a dict with at least one element. *)
Definition nonempty_container (j : json) : bool :=
  match j with
  | JArr (_ :: _) | JObj (_ :: _) => true
  | _ => false
  end.

(** ** The script as a program with effects *)

(** A program of a Python process: it ends, raises, writes to standard
    output, calls the library's serializer, or consults its surroundings
    (the clock, the entropy source, its arguments, its environment
    variables) and goes on with what it got. *)
Inductive prog : Type :=
| Done
| Throw (x : exn)
| Write (s : string) (k : prog)
| Serialize (d : Dashboard) (k : string -> prog)
| ReadClock (k : Z -> prog)
| ReadEntropy (k : Z -> prog)
| ReadArgv (k : list string -> prog)
| ReadEnviron (k : list (string * string) -> prog).

(** Runs a program in the surroundings [e], with a library whose serializer
    may itself consult them; [out] is what has been written so far.  An
    exception that escapes ends the process with status 1. *)
Fixpoint exec (lib : environment -> Dashboard -> result string)
    (e : environment) (p : prog) (out : string) : process :=
  match p with
  | Done => mkProcess out 0
  | Throw _ => mkProcess out 1
  | Write s k => exec lib e k (print s out)
  | Serialize d k =>
      match lib e d with
      | Ok text => exec lib e (k text) out
      | Raise _ => mkProcess out 1
      end
  | ReadClock k => exec lib e (k (clock e)) out
  | ReadEntropy k => exec lib e (k (entropy e)) out
  | ReadArgv k => exec lib e (k (argv e)) out
  | ReadEnviron k => exec lib e (k (environ e)) out
  end.

(** Lines 273-282, statement by statement: build the dashboard, have the
    library serialize it, decode the text, wrap the tree, encode the
    envelope and print it. *)
Definition script : prog :=
  let dashboard := create_dashboard in
  Serialize dashboard (fun text =>
    match json_loads text with
    | Ok tree => Write (json_dumps 2 (dashboard_json tree)) Done
    | Raise x => Throw x
    end).

(** The script with one more statement, for comparison: it reads the clock
    and prints the time before the document. *)
Definition stamped_script : prog :=
  ReadClock (fun t => Write (encode_int t) script).

(** [oblivious p]: no statement of [p] consults the surroundings. *)
Inductive oblivious : prog -> Prop :=
| oblivious_done : oblivious Done
| oblivious_throw x : oblivious (Throw x)
| oblivious_write s k : oblivious k -> oblivious (Write s k)
| oblivious_serialize d k :
    (forall text, oblivious (k text)) -> oblivious (Serialize d k).

(** ** Texts that are not JSON *)

(** A character that starts no JSON value: not a quote, a bracket, a digit,
    a minus sign, nor the first letter of [true], [false], [null], [NaN] or
    [Infinity]. *)
Definition starts_no_value (c : ascii) : bool :=
  negb (is_ws c || is_digit c || Ascii.eqb c dquote || Ascii.eqb c "[" ||
        Ascii.eqb c "{" || Ascii.eqb c "t" || Ascii.eqb c "f" ||
        Ascii.eqb c "n" || Ascii.eqb c "-" || Ascii.eqb c "N" ||
        Ascii.eqb c "I").

(** Texts that no JSON decoder accepts: a blank text, a text whose first
    character starts no value, a value followed by extra data, a string
    literal without its closing quote, a string literal holding a raw
    control character. *)
Inductive not_json : string -> Prop :=
| not_json_blank s :
    skip_ws s = "" -> not_json s
| not_json_start s c r :
    skip_ws s = String c r -> starts_no_value c = true -> not_json s
| not_json_extra j n c r :
    wf j -> is_ws c = false -> continues_number (String c r) = false ->
    not_json (json_dumps n j ++ String c r)
| not_json_unterminated s :
    not_json (String dquote (escape s))
| not_json_control s c r :
    (N_of_ascii c <? 32)%N = true ->
    not_json (String dquote (escape s ++ String c r)).

(** * Properties *)

(** ** Strings *)

Lemma append_assoc (a b c : string) : (a ++ b) ++ c = a ++ (b ++ c).
Proof.
  induction a as [|x a IH]; simpl; [reflexivity|now rewrite IH].
Qed.

Lemma append_nil_r (a : string) : a ++ "" = a.
Proof.
  induction a as [|x a IH]; simpl; [reflexivity|now rewrite IH].
Qed.

Lemma length_append (a b : string) :
  String.length (a ++ b) = (String.length a + String.length b)%nat.
Proof.
  induction a as [|x a IH]; simpl; [reflexivity|now rewrite IH].
Qed.

Lemma skip_ws_spaces (n : nat) (s : string) : skip_ws (spaces n ++ s) = skip_ws s.
Proof.
  induction n as [|n IH]; simpl; [reflexivity|exact IH].
Qed.

Lemma skip_ws_newline_indent (indent level : nat) (s : string) :
  skip_ws (newline_indent indent level ++ s) = skip_ws s.
Proof.
  unfold newline_indent. simpl. apply skip_ws_spaces.
Qed.

Lemma skip_ws_starts_value (s : string) : starts_value s = true -> skip_ws s = s.
Proof.
  destruct s as [|c s]; simpl; [discriminate|].
  now destruct (is_ws c).
Qed.

Lemma starts_value_head (s : string) :
  starts_value s = true ->
  exists c r, s = String c r /\ is_ws c = false /\
              Ascii.eqb c "]" = false /\ Ascii.eqb c "}" = false.
Proof.
  destruct s as [|c r]; simpl; [discriminate|].
  intros H. exists c, r.
  destruct (is_ws c), (Ascii.eqb c "]"), (Ascii.eqb c "}"); try discriminate H.
  repeat split.
Qed.

Lemma starts_value_append (a b : string) :
  starts_value a = true -> starts_value (a ++ b) = true.
Proof.
  destruct a; simpl; [discriminate|trivial].
Qed.

(** ** String literals *)

Lemma scan_escape_char (c : ascii) (t : string) :
  scan_string (escape_char c ++ t) = cons_char c (scan_string t).
Proof.
  destruct c as [[] [] [] [] [] [] [] []]; reflexivity.
Qed.

Lemma scan_escape (s rest : string) :
  scan_string (escape s ++ String dquote rest) = Some (s, rest).
Proof.
  induction s as [|c s IH]; simpl.
  - reflexivity.
  - rewrite append_assoc, scan_escape_char, IH. reflexivity.
Qed.

Lemma scan_encoded_string (s rest : string) :
  scan_string (escape s ++ DQ ++ rest) = Some (s, rest).
Proof.
  exact (scan_escape s rest).
Qed.

(** ** Integer literals *)

Lemma string_of_uint_digits (u : Decimal.uint) :
  all_digits (NilEmpty.string_of_uint u) = true.
Proof.
  induction u; simpl; auto.
Qed.

Lemma span_digits_append (ds rest : string) :
  all_digits ds = true ->
  continues_number rest = false ->
  span_digits (ds ++ rest) = (ds, rest).
Proof.
  intros Hd Hr. induction ds as [|c ds IH]; simpl in *.
  - destruct rest as [|c r]; [reflexivity|].
    cbn [continues_number] in Hr. cbn [span_digits].
    destruct (is_digit c); [discriminate|reflexivity].
  - apply andb_prop in Hd as [Hc Hd]. rewrite Hc, (IH Hd). reflexivity.
Qed.

Lemma nzhead_no_zero (u v : Decimal.uint) : Decimal.nzhead u <> Decimal.D0 v.
Proof.
  induction u; simpl; try discriminate. exact IHu.
Qed.

(** The decimal digits of a positive number do not start with [0]. *)
Lemma to_uint_head (p : positive) (v : Decimal.uint) :
  Pos.to_uint p <> Decimal.D0 v.
Proof.
  intros H.
  assert (E : Decimal.unorm (Pos.to_uint p) = Pos.to_uint p).
  { pose proof (DecimalZ.to_of (Z.to_int (Z.pos p))) as E.
    rewrite DecimalZ.of_to in E. cbn [Z.to_int Decimal.norm] in E.
    now injection E. }
  rewrite H in E. unfold Decimal.unorm in E. cbn [Decimal.nzhead] in E.
  destruct (Decimal.nzhead v) eqn:Hn; try discriminate E.
  - injection E as <-. exact (DecimalPos.Unsigned.to_uint_nonzero p H).
  - exact (nzhead_no_zero v _ Hn).
Qed.

Lemma of_uint_to_uint (p : positive) : Z.of_uint (Pos.to_uint p) = Z.pos p.
Proof.
  exact (DecimalZ.of_to (Z.pos p)).
Qed.

Lemma parse_uint_text (p : positive) (neg : bool) (rest : string) :
  continues_number rest = false ->
  (let '(ds, r) := span_digits (NilEmpty.string_of_uint (Pos.to_uint p) ++ rest) in
   match ds with
   | EmptyString => None
   | String d ds' =>
       if Ascii.eqb d "0" && negb (String.eqb ds' "") then None
       else if continues_number r then None
       else
         match NilEmpty.uint_of_string ds with
         | Some u => Some (if neg then - Z.of_uint u else Z.of_uint u, r)
         | None => None
         end
   end) = Some (if neg then Z.neg p else Z.pos p, rest).
Proof.
  intros Hr.
  rewrite (span_digits_append _ _ (string_of_uint_digits _) Hr).
  pose proof (to_uint_head p) as Hh.
  pose proof (DecimalPos.Unsigned.to_uint_nonnil p) as Hn.
  pose proof (NilEmpty.usu (Pos.to_uint p)) as Hu.
  pose proof (of_uint_to_uint p) as Hz.
  destruct (Pos.to_uint p) as [|u|u|u|u|u|u|u|u|u|u];
    try (exfalso; apply Hn; reflexivity);
    try (exfalso; apply (Hh u); reflexivity);
    cbn [NilEmpty.string_of_uint] in Hu |- *;
    cbn [Ascii.eqb Bool.eqb andb];
    rewrite Hr, Hu, Hz; destruct neg; reflexivity.
Qed.

Lemma encode_int_digits_head (z : Z) :
  exists c s, encode_int z = String c s /\ is_ws c = false /\
              Ascii.eqb c "]" = false /\ Ascii.eqb c "}" = false /\
              Ascii.eqb c dquote = false /\ Ascii.eqb c "[" = false /\
              Ascii.eqb c "{" = false /\ Ascii.eqb c "t" = false /\
              Ascii.eqb c "f" = false /\ Ascii.eqb c "n" = false.
Proof.
  assert (Hu : forall u, u <> Decimal.Nil ->
            exists c s, NilEmpty.string_of_uint u = String c s /\ is_digit c = true).
  { intros u Hn. destruct u; try (exfalso; apply Hn; reflexivity);
      simpl; eexists _, _; split; reflexivity. }
  assert (Hd : forall c, is_digit c = true ->
            is_ws c = false /\
            Ascii.eqb c "]" = false /\ Ascii.eqb c "}" = false /\
            Ascii.eqb c dquote = false /\ Ascii.eqb c "[" = false /\
            Ascii.eqb c "{" = false /\ Ascii.eqb c "t" = false /\
            Ascii.eqb c "f" = false /\ Ascii.eqb c "n" = false).
  { intros c. destruct c as [[] [] [] [] [] [] [] []]; cbv; intros H;
      try discriminate H; repeat split. }
  unfold encode_int.
  destruct z as [|p|p]; simpl.
  - eexists _, _. split; [reflexivity|]. repeat split.
  - destruct (Hu _ (DecimalPos.Unsigned.to_uint_nonnil p)) as (c & s & E & D).
    exists c, s. split; [|exact (Hd c D)].
    destruct (Pos.to_uint p); try exact E.
    discriminate E.
  - eexists _, _. split; [reflexivity|]. repeat split.
Qed.

Lemma parse_encode_int (z : Z) (rest : string) :
  continues_number rest = false ->
  parse_int (encode_int z ++ rest) = Some (z, rest).
Proof.
  intros Hr. unfold encode_int, parse_int.
  destruct z as [|p|p].
  - destruct rest as [|c r]; [reflexivity|].
    cbn [continues_number] in Hr.
    destruct (is_digit c) eqn:Hd; [discriminate Hr|].
    simpl. rewrite Hd. simpl. rewrite Hd.
    cbn [orb] in Hr |- *. rewrite Hr. reflexivity.
  - pose proof (parse_uint_text p false rest Hr) as H.
    pose proof (DecimalPos.Unsigned.to_uint_nonnil p) as Hn.
    pose proof (string_of_uint_digits (Pos.to_uint p)) as Hd.
    unfold Z.to_int, NilZero.string_of_int, NilZero.string_of_uint.
    destruct (Pos.to_uint p) eqn:E; try (exfalso; apply Hn; reflexivity);
      rewrite <- E in *; clear Hn.
    all: destruct (NilEmpty.string_of_uint (Pos.to_uint p)) as [|c s] eqn:Es;
      [rewrite E in Es; discriminate Es|].
    all: simpl in Hd; apply andb_prop in Hd as [Hc _].
    all: assert (Hm : Ascii.eqb c "-" = false)
      by (clear - Hc; destruct c as [[] [] [] [] [] [] [] []]; cbv in Hc |- *;
          congruence).
    all: change (String c s ++ rest) with (String c (s ++ rest)) in *.
    all: cbv beta iota; rewrite Hm; exact H.
  - pose proof (parse_uint_text p true rest Hr) as H.
    pose proof (DecimalPos.Unsigned.to_uint_nonnil p) as Hn.
    unfold Z.to_int, NilZero.string_of_int, NilZero.string_of_uint.
    destruct (Pos.to_uint p) eqn:E; try (exfalso; apply Hn; reflexivity);
      rewrite <- E in *; clear Hn.
    all: simpl; exact H.
Qed.

(** ** Containers *)

Lemma encode_arr (indent level : nat) (x : json) (l : list json) :
  encode indent level (JArr (x :: l)) =
  "[" ++ encode_items indent (S level) (x :: l) ++ newline_indent indent level ++ "]".
Proof.
  assert (H : forall l0,
    (fix items (l : list json) : string :=
       match l with
       | [] => ""
       | x :: l' =>
           newline_indent indent (S level) ++ encode indent (S level) x ++
           match l' with
           | [] => ""
           | _ :: _ => "," ++ items l'
           end
       end) l0 = encode_items indent (S level) l0).
  { induction l0 as [|y l0 IH]; [reflexivity|].
    cbn [encode_items]. rewrite <- IH. reflexivity. }
  cbn [encode]. rewrite H. reflexivity.
Qed.

Lemma encode_obj (indent level : nat) (kv : string * json) (m : list (string * json)) :
  encode indent level (JObj (kv :: m)) =
  "{" ++ encode_members indent (S level) (kv :: m) ++ newline_indent indent level ++ "}".
Proof.
  assert (H : forall m0,
    (fix members (m : list (string * json)) : string :=
       match m with
       | [] => ""
       | (k, v) :: m' =>
           newline_indent indent (S level) ++ encode_basestring_ascii k ++
           ": " ++ encode indent (S level) v ++
           match m' with
           | [] => ""
           | _ :: _ => "," ++ members m'
           end
       end) m0 = encode_members indent (S level) m0).
  { induction m0 as [|[k v] m0 IH]; [reflexivity|].
    cbn [encode_members]. rewrite <- IH. reflexivity. }
  cbn [encode]. rewrite H. reflexivity.
Qed.

Lemma wf_arr (l : list json) : wf (JArr l) <-> Forall wf l.
Proof.
  cbn [wf]. induction l as [|x l IH].
  - split; constructor.
  - split.
    + intros [Hx Hl]. constructor; [exact Hx|]. now apply IH.
    + intros H. inversion H; subst. split; [assumption|]. now apply IH.
Qed.

Lemma wf_obj (m : list (string * json)) :
  wf (JObj m) <-> NoDup (map fst m) /\ Forall (fun kv => wf (snd kv)) m.
Proof.
  cbn [wf].
  assert (H : (fix all (m : list (string * json)) : Prop :=
                 match m with
                 | [] => True
                 | (_, v) :: m' => wf v /\ all m'
                 end) m <-> Forall (fun kv => wf (snd kv)) m).
  { induction m as [|[k v] m IH].
    - split; constructor.
    - split.
      + intros [Hx Hl]. constructor; [exact Hx|]. now apply IH.
      + intros H. inversion H; subst. split; [assumption|]. now apply IH. }
  tauto.
Qed.

(** ** Dicts *)

Lemma dict_set_fresh (k : string) (v : json) (m : list (string * json)) :
  ~ In k (map fst m) -> dict_set k v m = (m ++ [(k, v)])%list.
Proof.
  induction m as [|[k' v'] m IH]; simpl; intros H; [reflexivity|].
  destruct (String.eqb_spec k k') as [->|_].
  - exfalso. apply H. now left.
  - rewrite IH; [reflexivity|]. intros Hin. apply H. now right.
Qed.

Lemma dict_of_pairs_acc (l acc : list (string * json)) :
  NoDup (map fst (acc ++ l)%list) ->
  fold_left (fun m kv => dict_set (fst kv) (snd kv) m) l acc = (acc ++ l)%list.
Proof.
  revert acc. induction l as [|[k v] l IH]; intros acc H; simpl.
  - now rewrite app_nil_r.
  - rewrite dict_set_fresh.
    + rewrite IH; rewrite <- app_assoc; [reflexivity|exact H].
    + rewrite map_app in H. simpl in H.
      apply NoDup_remove_2 in H. intros Hin. apply H.
      apply in_or_app. now left.
Qed.

Lemma dict_of_pairs_nodup (l : list (string * json)) :
  NoDup (map fst l) -> dict_of_pairs l = l.
Proof.
  intros H. exact (dict_of_pairs_acc l [] H).
Qed.

(** ** Decoding an encoded value *)

Lemma size_arr (l : list json) : size (JArr l) = S (sizes l).
Proof.
  reflexivity.
Qed.

Lemma size_obj (m : list (string * json)) : size (JObj m) = S (member_sizes m).
Proof.
  reflexivity.
Qed.

Lemma encode_starts_value (indent level : nat) (j : json) :
  starts_value (encode indent level j) = true.
Proof.
  destruct j as [|[|]|z|s|[|x l]|[|kv m]]; try reflexivity.
  destruct (encode_int_digits_head z) as (c & s & E & Hw & Hb & Hc & _).
  cbn [encode]. rewrite E. cbn [starts_value]. now rewrite Hw, Hb, Hc.
Qed.

Lemma closing_tail (tail rest : string) (c : ascii) :
  skip_ws tail = String c rest -> is_digit c = false ->
  Ascii.eqb c "." = false -> Ascii.eqb c "e" = false -> Ascii.eqb c "E" = false ->
  continues_number tail = false.
Proof.
  intros H Hd H1 H2 H3.
  destruct tail as [|a t]; [reflexivity|].
  cbn [skip_ws] in H. cbn [continues_number].
  destruct (is_ws a) eqn:Hw.
  - clear H. destruct a as [[] [] [] [] [] [] [] []]; cbv in Hw |- *; congruence.
  - injection H as -> ->. now rewrite Hd, H1, H2, H3.
Qed.

Lemma parse_items_encode (indent level : nat) (l : list json) :
  Forall roundtrips l -> Forall wf l ->
  forall (x : json) (fuel : nat) (tail rest : string),
    roundtrips x -> wf x -> (sizes (x :: l) <= fuel)%nat ->
    skip_ws tail = String "]" rest ->
    parse_items fuel (encode indent level x ++ items_rest indent level l ++ tail)
    = Some (x :: l, rest).
Proof.
  induction l as [|y l IH]; intros HP HW x fuel tail rest Hx Wx Hf Ht;
    (destruct fuel as [|f]; [cbn [sizes] in Hf; lia|]);
    cbn [sizes] in Hf; cbn [parse_items].
  - cbn [items_rest append].
    rewrite (Hx indent level f tail Wx); [|lia|].
    + rewrite Ht. reflexivity.
    + now apply (closing_tail tail rest "]").
  - inversion HP as [|? ? Py Pl]; subst. inversion HW as [|? ? Wy Wl]; subst.
    cbn [items_rest encode_items].
    change (match l with
            | [] => ""
            | _ :: _ => "," ++ encode_items indent level l
            end) with (items_rest indent level l).
    rewrite (Hx indent level f _ Wx); [|lia|reflexivity].
    cbn [append]. rewrite (skip_ws_starts_value (String "," _)) by reflexivity.
    cbv beta iota. rewrite Ascii.eqb_refl.
    rewrite !append_assoc, skip_ws_newline_indent.
    rewrite skip_ws_starts_value
      by (apply starts_value_append, encode_starts_value).
    rewrite (IH Pl Wl y f tail rest Py Wy); [reflexivity| |exact Ht].
    cbn [sizes]. lia.
Qed.

Lemma parse_members_encode (indent level : nat) (m : list (string * json)) :
  Forall (fun kv => roundtrips (snd kv)) m ->
  Forall (fun kv => wf (snd kv)) m ->
  forall (k : string) (v : json) (fuel : nat) (tail rest : string),
    roundtrips v -> wf v -> (member_sizes ((k, v) :: m) <= fuel)%nat ->
    skip_ws tail = String "}" rest ->
    parse_members fuel
      (encode_basestring_ascii k ++ ": " ++ encode indent level v ++
       members_rest indent level m ++ tail)
    = Some ((k, v) :: m, rest).
Proof.
  induction m as [|[k' v'] m IH]; intros HP HW k v fuel tail rest Hv Wv Hf Ht;
    (destruct fuel as [|f]; [cbn [member_sizes] in Hf; lia|]);
    cbn [member_sizes] in Hf; cbn [parse_members];
    unfold encode_basestring_ascii; rewrite !append_assoc;
    change (DQ ++ ?a) with (String dquote a); cbv beta iota;
    rewrite Ascii.eqb_refl, scan_encoded_string;
    cbn [append]; rewrite (skip_ws_starts_value (String ":" _)) by reflexivity;
    cbv beta iota; rewrite Ascii.eqb_refl;
    change (skip_ws (String " " ?a)) with (skip_ws a);
    rewrite skip_ws_starts_value
      by (apply starts_value_append, encode_starts_value).
  - cbn [members_rest append].
    rewrite (Hv indent level f tail Wv); [|lia|].
    + rewrite Ht. reflexivity.
    + now apply (closing_tail tail rest "}").
  - inversion HP as [|? ? Py Pl]; subst. inversion HW as [|? ? Wy Wl]; subst.
    cbn [snd] in Py, Wy.
    cbn [members_rest encode_members].
    change (match m with
            | [] => ""
            | _ :: _ => "," ++ encode_members indent level m
            end) with (members_rest indent level m).
    rewrite (Hv indent level f _ Wv); [|lia|reflexivity].
    cbn [append]. rewrite (skip_ws_starts_value (String "," _)) by reflexivity.
    cbv beta iota. rewrite Ascii.eqb_refl.
    rewrite !append_assoc, skip_ws_newline_indent.
    rewrite skip_ws_starts_value by reflexivity.
    cbn [append]. rewrite !append_assoc.
    specialize (IH Pl Wl k' v' f tail rest Py Wy). cbn [append] in IH.
    rewrite IH; [reflexivity| |exact Ht].
    cbn [member_sizes]. lia.
Qed.

(** Decoding inverts encoding, at every indentation and nesting level. *)
Theorem parse_encode (j : json) : roundtrips j.
Proof.
  induction j as [|b|z|s|l IH|m IH] using json_ind;
    intros indent level fuel rest W Hf Hr;
    (destruct fuel as [|f]; [destruct l || destruct m || idtac; cbn in Hf; lia|]).
  - reflexivity.
  - destruct b; reflexivity.
  - destruct (encode_int_digits_head z)
      as (c & s & E & _ & _ & _ & H1 & H2 & H3 & H4 & H5 & H6).
    pose proof (parse_encode_int z rest Hr) as HP.
    cbn [encode] in *. rewrite E in *. cbn [append parse_value] in *.
    rewrite H1, H2, H3, H4, H5, H6, HP. reflexivity.
  - cbn [encode parse_value]. unfold encode_basestring_ascii.
    rewrite !append_assoc. change (DQ ++ ?a) with (String dquote a).
    cbv beta iota. rewrite Ascii.eqb_refl, scan_encoded_string. reflexivity.
  - destruct l as [|x l]; [reflexivity|].
    apply wf_arr in W. inversion W as [|? ? Wx Wl]; subst.
    inversion IH as [|? ? Px Pl]; subst.
    rewrite size_arr in Hf.
    rewrite encode_arr. cbn [encode_items].
    change (match l with
            | [] => ""
            | _ :: _ => "," ++ encode_items indent (S level) l
            end) with (items_rest indent (S level) l).
    rewrite !append_assoc. cbn [append parse_value]. cbv beta iota.
    change (Ascii.eqb "[" dquote) with false.
    change (Ascii.eqb "[" "[") with true. cbv beta iota.
    rewrite skip_ws_newline_indent.
    pose proof (parse_items_encode indent (S level) l Pl Wl x f
                  (newline_indent indent level ++ "]" ++ rest) rest Px Wx
                  ltac:(lia)
                  ltac:(rewrite skip_ws_newline_indent; reflexivity)) as HI.
    rewrite skip_ws_starts_value
      by (apply starts_value_append, encode_starts_value).
    destruct (starts_value_head _ (encode_starts_value indent (S level) x))
      as (c & r & E & _ & Hc & _).
    rewrite E in *. cbn [append] in *. rewrite Hc, HI. reflexivity.
  - destruct m as [|[k v] m]; [reflexivity|].
    apply wf_obj in W. destruct W as [ND W].
    inversion W as [|? ? Wv Wm]; subst.
    inversion IH as [|? ? Pv Pm]; subst. cbn [snd] in Wv, Pv.
    rewrite size_obj in Hf.
    rewrite encode_obj. cbn [encode_members].
    change (match m with
            | [] => ""
            | _ :: _ => "," ++ encode_members indent (S level) m
            end) with (members_rest indent (S level) m).
    rewrite !append_assoc. cbn [append parse_value]. cbv beta iota.
    change (Ascii.eqb "{" dquote) with false.
    change (Ascii.eqb "{" "[") with false.
    change (Ascii.eqb "{" "{") with true. cbv beta iota.
    rewrite skip_ws_newline_indent.
    pose proof (parse_members_encode indent (S level) m Pm Wm k v f
                  (newline_indent indent level ++ "}" ++ rest) rest Pv Wv
                  ltac:(lia)
                  ltac:(rewrite skip_ws_newline_indent; reflexivity)) as HI.
    unfold encode_basestring_ascii in *. rewrite !append_assoc in *.
    change (DQ ++ ?a) with (String dquote a) in *.
    cbn [skip_ws]. change (is_ws dquote) with false. cbv beta iota.
    change (Ascii.eqb dquote "}") with false. cbv beta iota.
    cbn [append] in HI |- *.
    rewrite HI, (dict_of_pairs_nodup _ ND). reflexivity.
Qed.

(** ** Fuel: the length of the text is enough *)

Lemma length_newline_indent (indent level : nat) :
  (1 <= String.length (newline_indent indent level))%nat.
Proof.
  unfold newline_indent. cbn [String.length]. lia.
Qed.

Lemma sizes_le_length (indent level : nat) (l : list json) :
  Forall (fun j => forall i n, (size j <= String.length (encode i n j))%nat) l ->
  (sizes l <= String.length (encode_items indent level l))%nat.
Proof.
  induction 1 as [|x l Hx _ IH]; [apply Nat.le_refl|].
  cbn [sizes encode_items]. rewrite !length_append.
  pose proof (length_newline_indent indent level).
  specialize (Hx indent level).
  destruct l as [|y l]; [cbn [sizes String.length] in *; lia|].
  cbn [append String.length]. lia.
Qed.

Lemma member_sizes_le_length (indent level : nat) (m : list (string * json)) :
  Forall (fun kv => forall i n,
            (size (snd kv) <= String.length (encode i n (snd kv)))%nat) m ->
  (member_sizes m <= String.length (encode_members indent level m))%nat.
Proof.
  induction 1 as [|[k v] m Hx _ IH]; [apply Nat.le_refl|].
  cbn [member_sizes encode_members]. rewrite !length_append.
  pose proof (length_newline_indent indent level).
  specialize (Hx indent level). cbn [snd] in Hx.
  destruct m as [|y m]; [cbn [member_sizes String.length] in *; lia|].
  cbn [append String.length]. lia.
Qed.

Lemma size_le_length (j : json) (indent level : nat) :
  (size j <= String.length (encode indent level j))%nat.
Proof.
  revert indent level.
  induction j as [|b|z|s|l IH|m IH] using json_ind; intros indent level.
  - cbn. lia.
  - destruct b; cbn; lia.
  - destruct (encode_int_digits_head z) as (c & s & E & _).
    cbn [encode size]. rewrite E. cbn [String.length]. lia.
  - cbn [encode size]. unfold encode_basestring_ascii.
    cbn [DQ append String.length]. lia.
  - destruct l as [|x l]; [cbn; lia|].
    rewrite size_arr, encode_arr.
    pose proof (sizes_le_length indent (S level) _ IH).
    cbn [append String.length]. rewrite !length_append. lia.
  - destruct m as [|kv m]; [cbn; lia|].
    rewrite size_obj, encode_obj.
    pose proof (member_sizes_le_length indent (S level) _ IH).
    cbn [append String.length]. rewrite !length_append. lia.
Qed.

Lemma blank_tail (ws : string) : skip_ws ws = "" -> continues_number ws = false.
Proof.
  destruct ws as [|a t]; [reflexivity|].
  cbn [skip_ws continues_number].
  destruct (is_ws a) eqn:Hw; [|discriminate].
  intros _. destruct a as [[] [] [] [] [] [] [] []]; cbv in Hw |- *; congruence.
Qed.

(** [json.loads] reads back what the encoder wrote, at any indentation and
    with any white space after it. *)
Theorem json_loads_encode (j : json) (indent level : nat) (ws : string) :
  wf j -> skip_ws ws = "" ->
  json_loads (encode indent level j ++ ws) = Ok j.
Proof.
  intros W Hws. unfold json_loads.
  rewrite skip_ws_starts_value
    by (apply starts_value_append, encode_starts_value).
  rewrite (parse_encode j indent level _ ws W).
  - now rewrite Hws.
  - rewrite length_append. pose proof (size_le_length j indent level). lia.
  - now apply blank_tail.
Qed.

Corollary json_loads_dumps (j : json) (indent : nat) :
  wf j -> json_loads (json_dumps indent j) = Ok j.
Proof.
  intros W. unfold json_dumps.
  rewrite <- (append_nil_r (encode indent 0 j)).
  now apply json_loads_encode.
Qed.

(** ** The serialized dashboard is a well-formed value *)

Lemma nodupb_sound (l : list string) : nodupb l = true -> NoDup l.
Proof.
  induction l as [|k l IH]; cbn [nodupb]; intros H; constructor.
  - apply andb_prop in H as [H _]. intros Hin.
    apply negb_true_iff in H.
    assert (E : existsb (String.eqb k) l = true).
    { apply existsb_exists. exists k. split; [exact Hin|apply String.eqb_refl]. }
    congruence.
  - apply andb_prop in H as [_ H]. now apply IH.
Qed.

(** Closes [wf (JObj m)] for a dict written out with literal keys, leaving
    the well-formedness of the values that are not scalars. *)
Ltac wf_literal :=
  apply wf_obj; split;
  [ apply nodupb_sound; reflexivity
  | repeat (apply Forall_cons; [cbn [snd]; try exact I|]); try apply Forall_nil ].

Lemma wf_map (A : Type) (f : A -> json) (l : list A) :
  (forall a, wf (f a)) -> wf (JArr (map f l)).
Proof.
  intros H. apply wf_arr. apply Forall_map. apply Forall_forall. auto.
Qed.

Lemma wf_target_json (t : Target) : wf (target_json t).
Proof.
  unfold target_json. wf_literal.
Qed.

Lemma wf_template_json (t : Template) : wf (template_json t).
Proof.
  unfold template_json. wf_literal.
Qed.

Lemma wf_bound_json (b : option number) (j : json) : bound_json b = Ok j -> wf j.
Proof.
  destruct b as [[z| | |]|]; cbn; intros [= <-]; exact I.
Qed.

Lemma wf_yaxes_json (a : YAxes) (j : json) : yaxes_json a = Ok j -> wf j.
Proof.
  unfold yaxes_json, yaxis_json, bind.
  destruct (bound_json (min (left a))) as [lo|] eqn:Hlo; [|discriminate].
  destruct (bound_json (max (left a))) as [hi|] eqn:Hhi; [|discriminate].
  intros [= <-]. wf_literal. wf_literal.
  - exact (wf_bound_json _ _ Hlo).
  - exact (wf_bound_json _ _ Hhi).
Qed.

Lemma wf_id_json (i : option Z) : wf (id_json i).
Proof.
  destruct i; exact I.
Qed.

Lemma wf_panel_json (p : Panel) (j : json) : panel_json p = Ok j -> wf j.
Proof.
  unfold panel_json, bind.
  destruct (kind p) as [vn fmt sp|y|cls]; [| |discriminate].
  - intros [= <-]. cbn [app]. wf_literal.
    + apply wf_id_json.
    + apply wf_map, wf_target_json.
  - destruct (yaxes_json y) as [jy|] eqn:Hy; [|discriminate].
    intros [= <-]. cbn [app]. wf_literal.
    + apply wf_id_json.
    + apply wf_map, wf_target_json.
    + exact (wf_yaxes_json _ _ Hy).
Qed.

Lemma sequence_Forall (A : Type) (P : A -> Prop) (l : list (result A)) (xs : list A) :
  Forall (fun r => forall x, r = Ok x -> P x) l ->
  sequence l = Ok xs -> Forall P xs.
Proof.
  intros H. revert xs. induction H as [|r l Hr _ IH]; cbn [sequence]; intros xs.
  - intros [= <-]. constructor.
  - unfold bind. destruct r as [x|]; [|discriminate].
    destruct (sequence l) as [ys|]; [|discriminate].
    intros [= <-]. constructor; [now apply Hr|now apply IH].
Qed.

Lemma wf_row_json (r : Row) (j : json) : row_json r = Ok j -> wf j.
Proof.
  unfold row_json, bind.
  destruct (sequence (map panel_json (panels r))) as [ps|] eqn:Hps; [|discriminate].
  intros [= <-]. wf_literal.
  apply wf_arr. apply (sequence_Forall _ wf (map panel_json (panels r))).
  - apply Forall_map. apply Forall_forall. intros p _. apply wf_panel_json.
  - exact Hps.
Qed.

Lemma wf_to_json_data (d : Dashboard) (j : json) : to_json_data d = Ok j -> wf j.
Proof.
  unfold to_json_data, bind.
  destruct (sequence (map row_json (rows d))) as [rs|] eqn:Hrs; [|discriminate].
  intros [= <-]. wf_literal.
  - unfold strings_json. apply wf_map. intros; exact I.
  - unfold templating_json. wf_literal. apply wf_map, wf_template_json.
  - apply wf_arr. apply (sequence_Forall _ wf (map row_json (rows d))).
    + apply Forall_map. apply Forall_forall. intros r _. apply wf_row_json.
    + exact Hrs.
Qed.

Lemma wf_dashboard_json (j : json) : wf j -> wf (dashboard_json j).
Proof.
  intros W. unfold dashboard_json. wf_literal. exact W.
Qed.

(** ** What the main block computes *)

(** [json.loads] undoes the serializer's encoding, so the text the script
    prints is the encoded envelope around the dashboard's tree. *)
Lemma document_ok (d : Dashboard) (j : json) :
  to_json_data d = Ok j -> document d = Ok (json_dumps 2 (dashboard_json j)).
Proof.
  intros H. unfold document, document_with, _gen_json_from_panels, bind.
  rewrite H, (json_loads_dumps j 2 (wf_to_json_data d j H)). reflexivity.
Qed.

Lemma document_raise (d : Dashboard) (e : exn) :
  to_json_data d = Raise e -> document d = Raise e.
Proof.
  intros H. unfold document, document_with, _gen_json_from_panels, bind.
  now rewrite H.
Qed.

Lemma run_ok (d : Dashboard) (j : json) :
  to_json_data d = Ok j ->
  run d = mkProcess (json_dumps 2 (dashboard_json j) ++ LF) 0.
Proof.
  intros H. unfold run, run_with. fold document. now rewrite (document_ok d j H).
Qed.

Lemma run_raise (d : Dashboard) (e : exn) :
  to_json_data d = Raise e -> run d = mkProcess "" 1.
Proof.
  intros H. unfold run, run_with. fold document.
  now rewrite (document_raise d e H).
Qed.

(** ** Decoded values are well formed *)

Lemma dict_set_keys (k : string) (v : json) (m : list (string * json)) (k' : string) :
  In k' (map fst (dict_set k v m)) <-> k' = k \/ In k' (map fst m).
Proof.
  induction m as [|[k0 v0] m IH]; cbn [dict_set map fst In].
  - intuition.
  - destruct (String.eqb_spec k k0) as [->|Hne]; cbn [map fst In].
    + intuition.
    + rewrite IH. intuition.
Qed.

Lemma dict_set_nodup (k : string) (v : json) (m : list (string * json)) :
  NoDup (map fst m) -> NoDup (map fst (dict_set k v m)).
Proof.
  induction m as [|[k0 v0] m IH]; cbn [dict_set map fst]; intros H.
  - repeat constructor. intros [].
  - inversion H as [|? ? Hk Hm]; subst.
    destruct (String.eqb_spec k k0) as [->|Hne]; cbn [map fst].
    + constructor; assumption.
    + constructor; [|now apply IH].
      rewrite dict_set_keys. intros [E|Hin]; [now apply Hne|now apply Hk].
Qed.

Lemma dict_set_values (P : json -> Prop) (k : string) (v : json)
    (m : list (string * json)) :
  P v -> Forall (fun kv => P (snd kv)) m ->
  Forall (fun kv => P (snd kv)) (dict_set k v m).
Proof.
  intros Hv. induction 1 as [|[k0 v0] m H0 Hm IH]; cbn [dict_set].
  - repeat constructor. exact Hv.
  - destruct (String.eqb k k0); constructor; assumption.
Qed.

Lemma dict_of_pairs_wf (l : list (string * json)) :
  Forall (fun kv => wf (snd kv)) l -> wf (JObj (dict_of_pairs l)).
Proof.
  intros H. apply wf_obj. unfold dict_of_pairs.
  assert (G : forall acc,
            NoDup (map fst acc) /\ Forall (fun kv => wf (snd kv)) acc ->
            NoDup (map fst (fold_left (fun m kv => dict_set (fst kv) (snd kv) m) l acc)) /\
            Forall (fun kv => wf (snd kv))
              (fold_left (fun m kv => dict_set (fst kv) (snd kv) m) l acc)).
  { induction H as [|kv l Hkv _ IH]; intros acc [N F]; cbn [fold_left].
    - now split.
    - apply IH. split; [now apply dict_set_nodup|now apply dict_set_values]. }
  apply G. split; constructor.
Qed.

Lemma keyword_wf (p : string) (v j : json) (s r : string) :
  wf v -> keyword p v s = Some (j, r) -> wf j.
Proof.
  unfold keyword. destruct (strip_prefix p s); [|discriminate].
  now intros W [= <- _].
Qed.

Lemma parse_wf (fuel : nat) :
  (forall s j r, parse_value fuel s = Some (j, r) -> wf j) /\
  (forall s l r, parse_items fuel s = Some (l, r) -> Forall wf l) /\
  (forall s m r, parse_members fuel s = Some (m, r) ->
                 Forall (fun kv => wf (snd kv)) m).
Proof.
  induction fuel as [|f (IHv & IHi & IHm)];
    [repeat split; intros; discriminate|].
  repeat split.
  - intros s j r. cbn [parse_value].
    destruct s as [|c s']; [discriminate|].
    destruct (Ascii.eqb c dquote).
    { destruct (scan_string s') as [[str r0]|]; [|discriminate].
      intros [= <- _]. exact I. }
    destruct (Ascii.eqb c "[").
    { destruct (skip_ws s') as [|c1 r1]; [discriminate|].
      destruct (Ascii.eqb c1 "]"); [intros [= <- _]; exact I|].
      destruct (parse_items f (String c1 r1)) as [[l r0]|] eqn:E; [|discriminate].
      intros [= <- _]. apply wf_arr. exact (IHi _ _ _ E). }
    destruct (Ascii.eqb c "{").
    { destruct (skip_ws s') as [|c1 r1]; [discriminate|].
      destruct (Ascii.eqb c1 "}"); [intros [= <- _]; now apply wf_obj; repeat constructor|].
      destruct (parse_members f (String c1 r1)) as [[l r0]|] eqn:E; [|discriminate].
      intros [= <- _]. apply dict_of_pairs_wf. exact (IHm _ _ _ E). }
    destruct (Ascii.eqb c "t"); [now apply keyword_wf|].
    destruct (Ascii.eqb c "f"); [now apply keyword_wf|].
    destruct (Ascii.eqb c "n"); [now apply keyword_wf|].
    destruct (parse_int (String c s')) as [[z r0]|]; [|discriminate].
    intros [= <- _]. exact I.
  - intros s l r. cbn [parse_items].
    destruct (parse_value f s) as [[v r0]|] eqn:Ev; [|discriminate].
    destruct (skip_ws r0) as [|c r']; [discriminate|].
    destruct (Ascii.eqb c ",").
    { destruct (parse_items f (skip_ws r')) as [[l0 r1]|] eqn:E; [|discriminate].
      intros [= <- _]. constructor; [exact (IHv _ _ _ Ev)|exact (IHi _ _ _ E)]. }
    destruct (Ascii.eqb c "]"); [|discriminate].
    intros [= <- _]. constructor; [exact (IHv _ _ _ Ev)|constructor].
  - intros s m r. cbn [parse_members].
    destruct s as [|c s']; [discriminate|].
    destruct (Ascii.eqb c dquote); [|discriminate].
    destruct (scan_string s') as [[k r0]|]; [|discriminate].
    destruct (skip_ws r0) as [|c1 r1]; [discriminate|].
    destruct (Ascii.eqb c1 ":"); [|discriminate].
    destruct (parse_value f (skip_ws r1)) as [[v r2]|] eqn:Ev; [|discriminate].
    destruct (skip_ws r2) as [|c2 r3]; [discriminate|].
    destruct (Ascii.eqb c2 ",").
    { destruct (parse_members f (skip_ws r3)) as [[l0 r4]|] eqn:E; [|discriminate].
      intros [= <- _]. constructor; [exact (IHv _ _ _ Ev)|exact (IHm _ _ _ E)]. }
    destruct (Ascii.eqb c2 "}"); [|discriminate].
    intros [= <- _]. constructor; [exact (IHv _ _ _ Ev)|constructor].
Qed.

(** Whatever text it is given, [json.loads] returns a value whose dicts
    have no repeated key. *)
Theorem json_loads_wf (s : string) (j : json) : json_loads s = Ok j -> wf j.
Proof.
  unfold json_loads.
  destruct (parse_value (String.length s) (skip_ws s)) as [[v r]|] eqn:E;
    [|discriminate].
  destruct (skip_ws r); [|discriminate].
  intros [= <-]. exact (proj1 (parse_wf _) _ _ _ E).
Qed.


(** ** Which trees serialize *)

Lemma sequence_map_forallb (A B : Type) (f : A -> result B) (ok : A -> bool)
    (l : list A) :
  (forall a, if ok a then exists b, f a = Ok b else exists x, f a = Raise x) ->
  if forallb ok l
  then exists bs, sequence (map f l) = Ok bs
  else exists x, sequence (map f l) = Raise x.
Proof.
  intros H. induction l as [|a l IH]; cbn [forallb map sequence].
  - now exists [].
  - specialize (H a). unfold bind.
    destruct (ok a); cbn [andb].
    + destruct H as [b ->]. destruct (forallb ok l).
      * destruct IH as [bs ->]. now exists (b :: bs).
      * destruct IH as [x ->]. now exists x.
    + destruct H as [x ->]. now exists x.
Qed.

Lemma bound_json_representable (b : option number) :
  if bound_representable b
  then exists j, bound_json b = Ok j
  else bound_json b = Raise ValueError.
Proof.
  destruct b as [[z| | |]|]; cbn; eauto.
Qed.

Lemma panel_json_representable (p : Panel) :
  if representable p
  then exists j, panel_json p = Ok j
  else exists x, panel_json p = Raise x.
Proof.
  unfold representable, panel_json, yaxes_json, yaxis_json, bind.
  destruct (kind p) as [vn fmt sp|y|cls]; [eauto| |eauto].
  pose proof (bound_json_representable (min (left y))) as Hlo.
  pose proof (bound_json_representable (max (left y))) as Hhi.
  destruct (bound_representable (min (left y))); cbn [andb].
  - destruct Hlo as [lo ->].
    destruct (bound_representable (max (left y))).
    + destruct Hhi as [hi ->]. eauto.
    + rewrite Hhi. eauto.
  - rewrite Hlo. eauto.
Qed.

Lemma row_json_representable (r : Row) :
  if forallb representable (panels r)
  then exists j, row_json r = Ok j
  else exists x, row_json r = Raise x.
Proof.
  unfold row_json, bind.
  pose proof (sequence_map_forallb _ _ panel_json representable (panels r)
                panel_json_representable) as H.
  destruct (forallb representable (panels r)).
  - destruct H as [ps ->]. eauto.
  - destruct H as [x ->]. eauto.
Qed.

Lemma forallb_flat_map (A B : Type) (f : A -> list B) (ok : B -> bool) (l : list A) :
  forallb ok (flat_map f l) = forallb (fun a => forallb ok (f a)) l.
Proof.
  induction l as [|a l IH]; [reflexivity|].
  cbn [flat_map forallb]. now rewrite forallb_app, IH.
Qed.

(** Serialization succeeds exactly on the trees whose fields are all
    representable. *)
Lemma to_json_data_serializable (d : Dashboard) :
  if serializable d
  then exists j, to_json_data d = Ok j
  else exists x, to_json_data d = Raise x.
Proof.
  unfold serializable, all_panels, to_json_data, bind.
  rewrite forallb_flat_map.
  pose proof (sequence_map_forallb _ _ row_json
                (fun r => forallb representable (panels r)) (rows d)
                row_json_representable) as H.
  destruct (forallb _ (rows d)).
  - destruct H as [rs ->]. eauto.
  - destruct H as [x ->]. eauto.
Qed.

(** ** Runs of the script *)

Section runs.

Variable gen : Dashboard -> result string.

Lemma step_deterministic (s s1 s2 : state) :
  step gen s s1 -> step gen s s2 -> s1 = s2.
Proof.
  intros H1 H2.
  inversion H1; subst; inversion H2; subst; try reflexivity; congruence.
Qed.

Lemma halted_stuck (s s' : state) : halted s -> ~ step gen s s'.
Proof.
  intros [status H] Hs. inversion Hs; subst; discriminate H.
Qed.

Lemma steps_from_halted (s s' : state) : halted s -> steps gen s s' -> s' = s.
Proof.
  intros Hh Hs. destruct Hs as [|s s' s'' H _]; [reflexivity|].
  exfalso. exact (halted_stuck _ _ Hh H).
Qed.

(** A run ends in at most one way. *)
Lemma steps_halted_unique (s s1 s2 : state) :
  steps gen s s1 -> halted s1 -> steps gen s s2 -> halted s2 -> s1 = s2.
Proof.
  intros H1. revert s2. induction H1 as [s|s s' s1 Hs _ IH]; intros s2 Hh1 H2 Hh2.
  - symmetry. now apply steps_from_halted.
  - destruct H2 as [|s t s2 Ht H2].
    + exfalso. exact (halted_stuck _ _ Hh2 Hs).
    + rewrite (step_deterministic _ _ _ Ht Hs) in H2. now apply IH.
Qed.

(** The function [run_with] computes the end of the run. *)
Lemma run_with_steps (e : environment) (d : Dashboard) :
  steps gen (holding e d)
    (mkState e (Exited (exit_code (run_with gen d))) (stdout (run_with gen d))).
Proof.
  unfold holding, run_with, document_with, bind.
  destruct (gen d) as [text|x] eqn:Hg.
  - destruct (json_loads text) as [tree|y] eqn:Hl; cbn [exit_code stdout].
    + eapply steps_step; [now apply step_gen; eauto|].
      eapply steps_step; [now apply step_loads; eauto|].
      eapply steps_step; [apply step_dumps|].
      eapply steps_step; [apply step_print|].
      apply steps_refl.
    + eapply steps_step; [now apply step_gen; eauto|].
      eapply steps_step; [now eapply step_loads_raise; eauto|].
      apply steps_refl.
  - cbn [exit_code stdout].
    eapply steps_step; [now eapply step_gen_raise; eauto|].
    apply steps_refl.
Qed.

Lemma main_steps (e : environment) :
  steps gen (initial e)
    (mkState e (Exited (exit_code (run_with gen create_dashboard)))
       (stdout (run_with gen create_dashboard))).
Proof.
  eapply steps_step; [apply step_create|]. apply run_with_steps.
Qed.

(** Every complete run from a dashboard value ends as [run_with] says. *)
Lemma run_with_adequate (e : environment) (d : Dashboard) (s : state) :
  steps gen (holding e d) s -> halted s ->
  s = mkState e (Exited (exit_code (run_with gen d))) (stdout (run_with gen d)).
Proof.
  intros R H. symmetry.
  apply (steps_halted_unique (holding e d)); trivial.
  - apply run_with_steps.
  - now eexists.
Qed.

(** Every complete run of the script ends as [run_with] says on the
    script's dashboard. *)
Lemma main_adequate (e : environment) (s : state) :
  steps gen (initial e) s -> halted s ->
  s = mkState e (Exited (exit_code (run_with gen create_dashboard)))
        (stdout (run_with gen create_dashboard)).
Proof.
  intros R H. symmetry.
  apply (steps_halted_unique (initial e)); trivial.
  - apply main_steps.
  - now eexists.
Qed.

(** Nothing is written before the final [print]. *)
Lemma out_until_print (s s' : state) :
  steps gen s s' -> out s = "" -> out s' = "" \/ at_control s' = Exited 0.
Proof.
  induction 1 as [s|s s1 s' Hs Hss IH]; intros Ho; [now left|].
  inversion Hs; subst; cbn [out] in *; try (now apply IH).
  right.
  assert (Hh : halted (mkState e (Exited 0) (print s0 o)))
    by (exists 0; reflexivity).
  rewrite (steps_from_halted _ _ Hh Hss). reflexivity.
Qed.

(** When an exception escapes, no state of the run has any output, and the
    run ends with status 1. *)
Lemma failure_atomic (e : environment) (d : Dashboard) (x : exn) :
  document_with gen d = Raise x ->
  run_with gen d = mkProcess "" 1 /\
  forall s, steps gen (holding e d) s ->
            out s = "" /\ (halted s -> at_control s = Exited 1).
Proof.
  intros H.
  assert (R : run_with gen d = mkProcess "" 1) by (unfold run_with; now rewrite H).
  split; [exact R|]. intros s Hs.
  pose proof (run_with_steps e d) as Hend. rewrite R in Hend.
  cbn [exit_code stdout] in Hend.
  assert (Hh : halted s -> s = mkState e (Exited 1) "").
  { intros Hh. symmetry.
    assert (H1 : halted (mkState e (Exited 1) "")) by (exists 1; reflexivity).
    exact (steps_halted_unique _ _ _ Hend H1 Hs Hh). }
  split.
  - destruct (out_until_print _ _ Hs eq_refl) as [Ho|Hc]; [exact Ho|].
    rewrite (Hh (ex_intro _ 0 Hc)). reflexivity.
  - intros Hhs. rewrite (Hh Hhs). reflexivity.
Qed.

End runs.

(** ** Panel numbering *)

Lemma zseq_length (base : Z) (n : nat) : List.length (zseq base n) = n.
Proof.
  revert base. induction n as [|n IH]; intros base; cbn; [reflexivity|].
  now rewrite IH.
Qed.

Lemma zseq_app (base : Z) (n m : nat) :
  zseq base (n + m) = (zseq base n ++ zseq (base + Z.of_nat n) m)%list.
Proof.
  revert base. induction n as [|n IH]; intros base.
  - cbn [Nat.add zseq app]. now rewrite Z.add_0_r.
  - cbn [Nat.add zseq app]. rewrite IH. do 3 f_equal. lia.
Qed.

Lemma zseq_bounds (base : Z) (n : nat) (x : Z) :
  In x (zseq base n) -> base <= x < base + Z.of_nat n.
Proof.
  revert base. induction n as [|n IH]; intros base; cbn [zseq In]; [tauto|].
  intros [<-|H]; [lia|]. apply IH in H. lia.
Qed.

Lemma zseq_nodup (base : Z) (n : nat) : NoDup (zseq base n).
Proof.
  revert base. induction n as [|n IH]; intros base; cbn [zseq]; constructor.
  - intros H. apply zseq_bounds in H. lia.
  - apply IH.
Qed.

Lemma some_nodup (A : Type) (l : list A) : NoDup l -> NoDup (map Some l).
Proof.
  induction 1 as [|a l Ha _ IH]; cbn [map]; constructor; [|exact IH].
  intros H. apply in_map_iff in H as (b & [= ->] & Hb). now apply Ha.
Qed.

Lemma combine_append (A B : Type) (l1 l2 : list A) (m1 m2 : list B) :
  List.length l1 = List.length m1 ->
  combine (l1 ++ l2) (m1 ++ m2) = (combine l1 m1 ++ combine l2 m2)%list.
Proof.
  revert m1. induction l1 as [|a l1 IH]; intros [|b m1] H; try discriminate H.
  - reflexivity.
  - cbn [app combine]. f_equal. apply IH. now injection H.
Qed.

Lemma renumber_app (base : Z) (ps qs : list Panel) :
  renumber base (ps ++ qs) =
  (renumber base ps ++ renumber (base + Z.of_nat (List.length ps)) qs)%list.
Proof.
  unfold renumber. rewrite length_app, zseq_app, combine_append, map_app.
  - reflexivity.
  - apply zseq_length.
Qed.

Lemma renumber_ids (base : Z) (ps : list Panel) :
  map id (renumber base ps) = map Some (zseq base (List.length ps)).
Proof.
  unfold renumber. revert base.
  induction ps as [|p ps IH]; intros base; [reflexivity|].
  cbn [List.length zseq combine map fst snd set_id id]. now rewrite IH.
Qed.

Lemma renumber_length (base : Z) (ps : list Panel) :
  List.length (renumber base ps) = List.length ps.
Proof.
  unfold renumber. rewrite length_map, length_combine, zseq_length.
  apply Nat.min_id.
Qed.

Lemma number_panels_spec (next : Z) (ps : list Panel) :
  number_panels next ps = (renumber next ps, next + Z.of_nat (List.length ps)).
Proof.
  revert next. induction ps as [|p ps IH]; intros next.
  - cbn. now rewrite Z.add_0_r.
  - cbn [number_panels]. rewrite IH. unfold renumber.
    cbn [List.length zseq combine map fst snd]. f_equal. lia.
Qed.

Lemma number_rows_spec (next : Z) (rs : list Row) :
  flat_map panels (fst (number_rows next rs)) = renumber next (flat_map panels rs) /\
  snd (number_rows next rs) = next + Z.of_nat (List.length (flat_map panels rs)) /\
  map row_title (fst (number_rows next rs)) = map row_title rs /\
  map (fun r => List.length (panels r)) (fst (number_rows next rs)) =
  map (fun r => List.length (panels r)) rs.
Proof.
  revert next. induction rs as [|r rs IH]; intros next.
  - cbn. rewrite Z.add_0_r. repeat split.
  - cbn [number_rows]. rewrite number_panels_spec.
    destruct (IH (next + Z.of_nat (List.length (panels r)))) as (H1 & H2 & H3 & H4).
    destruct (number_rows (next + Z.of_nat (List.length (panels r))) rs)
      as [rs' next'].
    cbn [fst snd flat_map map panels row_title] in *.
    rewrite H1, H2, H3, H4, renumber_app, length_app, renumber_length.
    repeat split. lia.
Qed.

(** ** The layout of encoded text *)

Lemma ends_with_newline_print (s : string) : ends_with_newline (s ++ LF) = true.
Proof.
  unfold ends_with_newline. rewrite length_append.
  cbn [LF String.length]. rewrite Nat.add_1_r. cbn [Nat.pred].
  pose proof (append_correct2 s LF 0) as H. cbn [Nat.add] in H.
  rewrite <- H. reflexivity.
Qed.

Lemma laid_out_spaces (indent n : nat) (s : string) (depth : nat) (b : bool) (k : nat) :
  laid_out indent (spaces n ++ s) depth (LineStart b k) =
  laid_out indent s depth (LineStart b (k + n)).
Proof.
  revert k. induction n as [|n IH]; intros k.
  - cbn [spaces append]. now rewrite Nat.add_0_r.
  - cbn [spaces append laid_out]. change (Ascii.eqb " " " ") with true.
    cbv beta iota. rewrite IH. now rewrite Nat.add_succ_r.
Qed.

Lemma laid_out_escape_char (indent : nat) (c : ascii) (t : string) (depth : nat) :
  laid_out indent (escape_char c ++ t) depth InString =
  laid_out indent t depth InString.
Proof.
  destruct c as [[] [] [] [] [] [] [] []]; reflexivity.
Qed.

Lemma laid_out_escape (indent : nat) (s rest : string) (depth : nat) :
  laid_out indent (escape s ++ String dquote rest) depth InString =
  laid_out indent rest depth Inline.
Proof.
  induction s as [|c s IH]; cbn [escape append].
  - reflexivity.
  - now rewrite append_assoc, laid_out_escape_char.
Qed.

Lemma laid_out_string (indent : nat) (s rest : string) (depth : nat) :
  laid_out indent (encode_basestring_ascii s ++ rest) depth Inline =
  laid_out indent rest depth Inline.
Proof.
  unfold encode_basestring_ascii. rewrite !append_assoc.
  change (DQ ++ ?a) with (String dquote a).
  cbn [laid_out]. change (token dquote depth) with (Some (depth, InString)).
  cbv beta iota. apply laid_out_escape.
Qed.

Lemma token_digit (c : ascii) (depth : nat) :
  is_digit c = true -> token c depth = Some (depth, Inline).
Proof.
  destruct c as [[] [] [] [] [] [] [] []]; cbv; intros H;
    try discriminate H; reflexivity.
Qed.

Lemma laid_out_digits (indent : nat) (ds rest : string) (depth : nat) :
  all_digits ds = true ->
  laid_out indent (ds ++ rest) depth Inline = laid_out indent rest depth Inline.
Proof.
  induction ds as [|c ds IH]; cbn [all_digits append]; intros H; [reflexivity|].
  apply andb_prop in H as [Hc Hd].
  cbn [laid_out]. rewrite (token_digit c depth Hc). now apply IH.
Qed.

(** The text of an integer: digits, after a minus sign if negative. *)
Lemma encode_int_shape (z : Z) :
  exists ds, all_digits ds = true /\
             (encode_int z = ds \/ encode_int z = String "-" ds).
Proof.
  unfold encode_int.
  assert (E : forall p, NilZero.string_of_uint (Pos.to_uint p) =
                        NilEmpty.string_of_uint (Pos.to_uint p)).
  { intros p. pose proof (DecimalPos.Unsigned.to_uint_nonnil p) as Hn.
    destruct (Pos.to_uint p); [now exfalso|reflexivity..]. }
  destruct z as [|p|p]; cbn [Z.to_int NilZero.string_of_int].
  - exists "0". split; [reflexivity|now left].
  - exists (NilEmpty.string_of_uint (Pos.to_uint p)).
    split; [apply string_of_uint_digits|left; apply E].
  - exists (NilEmpty.string_of_uint (Pos.to_uint p)).
    split; [apply string_of_uint_digits|right; now rewrite E].
Qed.

Lemma laid_out_int (indent : nat) (z : Z) (rest : string) (depth : nat) :
  laid_out indent (encode_int z ++ rest) depth Inline =
  laid_out indent rest depth Inline.
Proof.
  destruct (encode_int_shape z) as (ds & Hd & [-> | ->]).
  - now apply laid_out_digits.
  - cbn [append laid_out]. change (token "-" depth) with (Some (depth, Inline)).
    cbv beta iota. now apply laid_out_digits.
Qed.

(** A value at the start of a line: the indentation is checked, then the
    value is scanned as inside a line. *)
Lemma laid_out_line_start (indent : nat) (s : string) (depth k : nat) :
  starts_value s = true ->
  laid_out indent s depth (LineStart false k) =
  Nat.eqb k (indent * depth) && laid_out indent s depth Inline.
Proof.
  destruct s as [|c s']; cbn [starts_value]; [discriminate|].
  intros H. apply negb_true_iff in H.
  cbn [laid_out].
  assert (Hc : Ascii.eqb c " " = false /\ closes c = false /\
               Ascii.eqb c newline = false).
  { clear - H. destruct c as [[] [] [] [] [] [] [] []]; cbv in H |- *;
      try discriminate H; repeat split. }
  destruct Hc as (-> & -> & ->). reflexivity.
Qed.

Lemma laid_out_newline_indent (indent level depth : nat) (s : string) :
  laid_out indent (newline_indent indent level ++ s) depth AfterComma =
  laid_out indent s depth (LineStart false (indent * level)).
Proof.
  unfold newline_indent. cbn [append laid_out].
  rewrite Ascii.eqb_refl. cbn [andb]. now rewrite laid_out_spaces.
Qed.

Lemma laid_out_items (indent level : nat) (l : list json) :
  Forall flows l ->
  forall (x : json) (tail : string),
    flows x ->
    laid_out indent (encode indent level x ++ items_rest indent level l ++ tail)
      level Inline =
    laid_out indent tail level Inline.
Proof.
  induction 1 as [|y l Hy _ IH]; intros x tail Hx; rewrite Hx.
  - reflexivity.
  - cbn [items_rest encode_items append laid_out].
    change (token "," level) with (Some (level, AfterComma)). cbv beta iota.
    change (match l with
            | [] => ""
            | _ :: _ => "," ++ encode_items indent level l
            end) with (items_rest indent level l).
    rewrite !append_assoc, (laid_out_newline_indent indent level level).
    rewrite laid_out_line_start
      by (apply starts_value_append, encode_starts_value).
    rewrite Nat.eqb_refl. cbn [andb]. now apply IH.
Qed.

Lemma laid_out_members (indent level : nat) (m : list (string * json)) :
  Forall (fun kv => flows (snd kv)) m ->
  forall (k : string) (v : json) (tail : string),
    flows v ->
    laid_out indent
      (encode_basestring_ascii k ++ ": " ++ encode indent level v ++
       members_rest indent level m ++ tail) level Inline =
    laid_out indent tail level Inline.
Proof.
  induction 1 as [|[k' v'] m Hy _ IH]; intros k v tail Hv;
    rewrite laid_out_string; cbn [append laid_out];
    change (token ":" level) with (Some (level, AfterColon)); cbv beta iota;
    rewrite Ascii.eqb_refl; cbn [andb]; rewrite Hv.
  - reflexivity.
  - cbn [snd] in Hy.
    cbn [members_rest encode_members append laid_out].
    change (token "," level) with (Some (level, AfterComma)). cbv beta iota.
    change (match m with
            | [] => ""
            | _ :: _ => "," ++ encode_members indent level m
            end) with (members_rest indent level m).
    rewrite !append_assoc, (laid_out_newline_indent indent level level).
    rewrite laid_out_line_start by reflexivity.
    rewrite Nat.eqb_refl. cbn [andb].
    specialize (IH k' v' tail Hy). cbn [append] in IH |- *.
    rewrite !append_assoc. exact IH.
Qed.

Lemma laid_out_close (indent level : nat) (c : ascii) (rest : string) :
  closes c = true ->
  laid_out indent (newline_indent indent level ++ String c rest) (S level) Inline =
  laid_out indent rest level Inline.
Proof.
  intros Hc. unfold newline_indent. cbn [append laid_out].
  change (token newline (S level)) with (Some (S level, LineStart true 0)).
  cbv beta iota. rewrite laid_out_spaces. cbn [Nat.add laid_out].
  assert (Hs : Ascii.eqb c " " = false).
  { clear - Hc. destruct c as [[] [] [] [] [] [] [] []]; cbv in Hc |- *;
      congruence. }
  rewrite Hs, Hc. cbn [Nat.pred andb]. now rewrite Nat.eqb_refl.
Qed.

(** Every encoded value is laid out as the pretty-printer lays it out. *)
Theorem laid_out_encode (j : json) : flows j.
Proof.
  induction j as [|b|z|s|l IH|m IH] using json_ind; intros indent level rest.
  - reflexivity.
  - destruct b; reflexivity.
  - apply laid_out_int.
  - apply laid_out_string.
  - destruct l as [|x l]; [reflexivity|].
    inversion IH as [|? ? Px Pl]; subst.
    rewrite encode_arr. cbn [encode_items].
    change (match l with
            | [] => ""
            | _ :: _ => "," ++ encode_items indent (S level) l
            end) with (items_rest indent (S level) l).
    rewrite !append_assoc. cbn [append laid_out].
    change (token "[" level) with (Some (S level, AfterOpen)). cbv beta iota.
    unfold newline_indent at 1. cbn [append laid_out].
    rewrite Ascii.eqb_refl, laid_out_spaces. cbn [Nat.add].
    rewrite laid_out_line_start
      by (apply starts_value_append, encode_starts_value).
    rewrite Nat.eqb_refl. cbn [andb].
    rewrite (laid_out_items indent (S level) l Pl x _ Px).
    now apply laid_out_close.
  - destruct m as [|[k v] m]; [reflexivity|].
    inversion IH as [|? ? Pv Pm]; subst. cbn [snd] in Pv.
    rewrite encode_obj. cbn [encode_members].
    change (match m with
            | [] => ""
            | _ :: _ => "," ++ encode_members indent (S level) m
            end) with (members_rest indent (S level) m).
    rewrite !append_assoc. cbn [append laid_out].
    change (token "{" level) with (Some (S level, AfterOpen)). cbv beta iota.
    unfold newline_indent at 1. cbn [append laid_out].
    rewrite Ascii.eqb_refl, laid_out_spaces. cbn [Nat.add].
    rewrite laid_out_line_start by reflexivity.
    rewrite Nat.eqb_refl. cbn [andb].
    pose proof (laid_out_members indent (S level) m Pm k v
                  (newline_indent indent level ++ "}" ++ rest) Pv) as HM.
    cbn [append] in HM |- *. rewrite HM.
    now apply laid_out_close.
Qed.

(** What [json.dumps] with [indent] returns, printed, is pretty. *)
Theorem pretty_dumps (indent : nat) (j : json) :
  pretty indent (json_dumps indent j ++ LF) = true.
Proof.
  unfold pretty, json_dumps.
  rewrite laid_out_line_start
    by (apply starts_value_append, encode_starts_value).
  rewrite Nat.mul_0_r, (laid_out_encode j indent 0%nat LF). reflexivity.
Qed.

(** A non-empty container encoded with one width is not laid out with
    another. *)
Lemma pretty_other_width (j : json) (n m : nat) :
  nonempty_container j = true -> n <> m ->
  pretty m (json_dumps n j ++ LF) = false.
Proof.
  intros Hj Hnm. unfold pretty, json_dumps.
  assert (F : Nat.eqb (0 + n * 1) (m * 1) = false).
  { apply Nat.eqb_neq. lia. }
  destruct j as [| | | |[|x l]|[|[k v] mm]]; try discriminate Hj.
  - rewrite encode_arr. cbn [encode_items].
    rewrite !append_assoc. cbn [append laid_out].
    change (Ascii.eqb "[" " ") with false. change (closes "[") with false.
    change (Ascii.eqb "[" newline) with false.
    change (token "[" 0) with (Some (1%nat, AfterOpen)). cbv beta iota.
    rewrite Nat.mul_0_r. cbn [negb andb Nat.eqb].
    unfold newline_indent at 1. cbn [append laid_out].
    rewrite Ascii.eqb_refl, laid_out_spaces.
    rewrite laid_out_line_start
      by (apply starts_value_append, encode_starts_value).
    now rewrite F.
  - rewrite encode_obj. cbn [encode_members].
    rewrite !append_assoc. cbn [append laid_out].
    change (Ascii.eqb "{" " ") with false. change (closes "{") with false.
    change (Ascii.eqb "{" newline) with false.
    change (token "{" 0) with (Some (1%nat, AfterOpen)). cbv beta iota.
    rewrite Nat.mul_0_r. cbn [negb andb Nat.eqb].
    unfold newline_indent at 1. cbn [append laid_out].
    rewrite Ascii.eqb_refl, laid_out_spaces.
    rewrite laid_out_line_start by reflexivity.
    now rewrite F.
Qed.

(** ** Programs that do not consult their surroundings *)




(** A statement that reads the clock does show in the output: the stamped
    script writes different bytes at different times. *)
Lemma stamped_script_differs :
  ~ oblivious stamped_script /\
  stdout (exec (fun _ => _gen_json_from_panels) quiet_environment
            stamped_script "") <>
  stdout (exec (fun _ => _gen_json_from_panels) busy_environment
            stamped_script "").
Proof.
  split.
  - intros H. inversion H.
  - vm_compute. discriminate.
Qed.

(** * The claims *)

(** C1: the dashboard returned by [create_dashboard], and the emitted
    document, contain exactly five rows, in the order Overview, Business
    Metrics, HTTP Performance, Error Rates, System Metrics, with 4, 2, 2, 2
    and 2 panels, twelve panels in all. *)
Theorem rows_and_panel_counts :
  map row_title (rows create_dashboard) =
    [ "Overview"; "Business Metrics"; "HTTP Performance"; "Error Rates";
      "System Metrics" ] /\
  map (fun r => List.length (panels r)) (rows create_dashboard) = [4; 2; 2; 2; 2]%nat /\
  List.length (all_panels create_dashboard) = 12%nat /\
  exists doc,
    json_loads (stdout main) = Ok doc /\
    document_rows doc =
      Some [ (JStr "Overview", 4%nat); (JStr "Business Metrics", 2%nat);
             (JStr "HTTP Performance", 2%nat); (JStr "Error Rates", 2%nat);
             (JStr "System Metrics", 2%nat) ].
Proof.
  repeat split; try reflexivity.
  eexists. split; vm_compute; reflexivity.
Qed.

(** C2: after the numbering pass every panel has an integer identifier, no
    two panels share one, the identifiers are contiguous, and they are given
    in row-then-panel order from a fixed base: the k-th panel in that order
    gets [base + k].  This holds for every dashboard and base; for the
    script's dashboard the identifiers are 1 to 12, in the tree and in the
    emitted document. *)
Theorem panel_ids_unique_contiguous :
  (forall (base : Z) (d : Dashboard),
     let ps := all_panels (auto_panel_ids_from base d) in
     ps = renumber base (all_panels d) /\
     map id ps = map Some (zseq base (List.length (all_panels d))) /\
     NoDup (map id ps) /\
     map (fun r => List.length (panels r)) (rows (auto_panel_ids_from base d)) =
     map (fun r => List.length (panels r)) (rows d)) /\
  map id (all_panels create_dashboard) = map Some (zseq first_panel_id 12) /\
  exists doc,
    json_loads (stdout main) = Ok doc /\
    document_panel_ids doc = Some (map JInt (zseq first_panel_id 12)).
Proof.
  split; [|split].
  - intros base d ps. subst ps. unfold all_panels, auto_panel_ids_from.
    cbn [rows].
    destruct (number_rows_spec base (rows d)) as (H1 & _ & _ & H4).
    rewrite H1, renumber_ids.
    repeat split; [|exact H4].
    apply some_nodup, zseq_nodup.
  - reflexivity.
  - eexists. split; vm_compute; reflexivity.
Qed.

(** C3: whenever the script succeeds, the top-level object of what it
    printed has exactly the three fields [dashboard], holding the decoded
    dashboard tree, [overwrite], holding [true], and [inputs], holding the
    empty list, in that order and no other.  This holds whatever the
    library's serializer returns. *)
Theorem envelope_has_three_fields
    (gen : Dashboard -> result string) (d : Dashboard) :
  exit_code (run_with gen d) = 0 ->
  exists text tree,
    gen d = Ok text /\ json_loads text = Ok tree /\
    json_loads (stdout (run_with gen d)) =
      Ok (JObj [ ("dashboard", tree); ("overwrite", JBool true);
                 ("inputs", JArr []) ]).
Proof.
  unfold run_with, document_with, bind.
  destruct (gen d) as [text|x]; [|discriminate].
  destruct (json_loads text) as [tree|x] eqn:Hl; [|discriminate].
  intros _. exists text, tree.
  split; [reflexivity|split; [exact Hl|]].
  cbn [stdout]. unfold print. cbn [append].
  apply json_loads_encode; [|reflexivity].
  apply wf_dashboard_json. exact (json_loads_wf _ _ Hl).
Qed.

Lemma script_envelope_witness :
  exit_code (run_with _gen_json_from_panels create_dashboard) = 0 /\
  exists text tree,
    _gen_json_from_panels create_dashboard = Ok text /\
    json_loads text = Ok tree /\
    json_loads (stdout (run_with _gen_json_from_panels create_dashboard)) =
      Ok (JObj [ ("dashboard", tree); ("overwrite", JBool true);
                 ("inputs", JArr []) ]).
Proof.
  split; [vm_compute; reflexivity|].
  apply (envelope_has_three_fields _gen_json_from_panels create_dashboard).
  vm_compute; reflexivity.
Defined.

(** C4: run without arguments, the script prints a document whose
    [dashboard.title] is the string "Booking Service Monitoring" and whose
    [dashboard.tags] is the list "booking-service", "events", "bookings",
    in this order. *)
Theorem title_and_tags :
  exists doc,
    json_loads (stdout main) = Ok doc /\
    get_path ["dashboard"; "title"] doc = Some (JStr "Booking Service Monitoring") /\
    get_path ["dashboard"; "tags"] doc =
      Some (JArr [ JStr "booking-service"; JStr "events"; JStr "bookings" ]).
Proof.
  eexists. repeat split; vm_compute; reflexivity.
Qed.



(** C6: round trip.  Whenever the script succeeds, decoding the document it
    emitted and encoding the result again with the same rules (indentation
    of 2, keys in the order read) gives back the document byte for byte, and
    printing it gives back the whole output.  This holds whatever the
    library's serializer returns. *)
Theorem reserialization_identical
    (gen : Dashboard -> result string) (d : Dashboard) :
  exit_code (run_with gen d) = 0 ->
  exists s doc,
    document_with gen d = Ok s /\
    json_loads s = Ok doc /\ json_dumps 2 doc = s /\
    json_loads (stdout (run_with gen d)) = Ok doc /\
    print (json_dumps 2 doc) "" = stdout (run_with gen d).
Proof.
  unfold run_with, document_with, bind.
  destruct (gen d) as [text|x]; [|discriminate].
  destruct (json_loads text) as [tree|x] eqn:Hl; [|discriminate].
  intros _.
  assert (W : wf (dashboard_json tree))
    by (apply wf_dashboard_json; exact (json_loads_wf _ _ Hl)).
  exists (json_dumps 2 (dashboard_json tree)), (dashboard_json tree).
  split; [reflexivity|]. split; [now apply json_loads_dumps|].
  split; [reflexivity|]. split; [|reflexivity].
  cbn [stdout]. unfold print. cbn [append].
  now apply json_loads_encode.
Qed.

Lemma script_reserialization_witness :
  exit_code (run_with _gen_json_from_panels create_dashboard) = 0 /\
  exists s doc,
    document_with _gen_json_from_panels create_dashboard = Ok s /\
    json_loads s = Ok doc /\ json_dumps 2 doc = s /\
    json_loads (stdout (run_with _gen_json_from_panels create_dashboard)) = Ok doc /\
    print (json_dumps 2 doc) "" =
      stdout (run_with _gen_json_from_panels create_dashboard).
Proof.
  split; [vm_compute; reflexivity|].
  apply (reserialization_identical _gen_json_from_panels create_dashboard).
  vm_compute; reflexivity.
Defined.

(** C7: the script writes the document to standard output, pretty-printed
    with an indentation of 2 spaces and followed by a line feed.  Whenever
    the serializer's text decodes, every complete run ends with status 0 and
    with standard output holding the indent-2 encoding of the envelope and a
    line feed.  What was written is the envelope: it decodes to the dict of
    lines 276-280 around the decoded tree.  In it every line starts with two
    spaces per open bracket, container elements stand one per line, and the
    last byte is a line feed. *)
Theorem emitted_layout
    (gen : Dashboard -> result string) (d : Dashboard)
    (text : string) (tree : json) :
  gen d = Ok text -> json_loads text = Ok tree ->
  run_with gen d = mkProcess (json_dumps 2 (dashboard_json tree) ++ LF) 0 /\
  json_loads (stdout (run_with gen d)) =
    Ok (JObj [ ("dashboard", tree); ("overwrite", JBool true);
               ("inputs", JArr []) ]) /\
  pretty 2 (stdout (run_with gen d)) = true /\
  (forall m, m <> 2%nat -> pretty m (stdout (run_with gen d)) = false) /\
  ends_with_newline (stdout (run_with gen d)) = true /\
  forall e s, steps gen (holding e d) s -> halted s ->
              at_control s = Exited 0 /\
              out s = json_dumps 2 (dashboard_json tree) ++ LF.
Proof.
  intros Hg Hl.
  assert (R : run_with gen d =
              mkProcess (json_dumps 2 (dashboard_json tree) ++ LF) 0).
  { unfold run_with, document_with, bind. now rewrite Hg, Hl. }
  split; [exact R|]. rewrite R. cbn [stdout].
  split.
  { apply (json_loads_encode (dashboard_json tree) 2 0%nat LF); [|reflexivity].
    apply wf_dashboard_json. exact (json_loads_wf _ _ Hl). }
  split; [apply pretty_dumps|].
  split.
  { intros m Hm. apply pretty_other_width; [reflexivity|].
    intros E. now apply Hm. }
  split; [apply ends_with_newline_print|].
  intros e s Hs Hh. rewrite (run_with_adequate gen e d s Hs Hh), R.
  split; reflexivity.
Qed.

Lemma script_layout_witness :
  exists text tree,
    _gen_json_from_panels create_dashboard = Ok text /\
    json_loads text = Ok tree /\
    main = mkProcess (json_dumps 2 (dashboard_json tree) ++ LF) 0 /\
    json_loads (stdout main) = Ok (dashboard_json tree) /\
    pretty 2 (stdout main) = true /\
    ends_with_newline (stdout main) = true.
Proof.
  destruct (_gen_json_from_panels create_dashboard) as [text|x] eqn:Hg;
    [|vm_compute in Hg; discriminate Hg].
  destruct (json_loads text) as [tree|x] eqn:Hl.
  - exists text, tree.
    destruct (emitted_layout _gen_json_from_panels create_dashboard text tree
                Hg Hl) as (R & D & P & _ & N & _).
    repeat split; assumption.
  - exfalso. vm_compute in Hg. injection Hg as <-. vm_compute in Hl.
    discriminate Hl.
Defined.

(** C8: every target of the constructed dashboard has a non-empty query
    expression and a non-empty legend; so it is in the literal, and after
    the numbering pass. *)
Theorem targets_nonempty :
  Forall (fun t => expr t <> "" /\ legendFormat t <> "")
         (all_targets dashboard_literal) /\
  Forall (fun t => expr t <> "" /\ legendFormat t <> "")
         (all_targets create_dashboard).
Proof.
  assert (G : forall d,
            forallb (fun t => negb (String.eqb (expr t) "") &&
                              negb (String.eqb (legendFormat t) ""))
                    (all_targets d) = true ->
            Forall (fun t => expr t <> "" /\ legendFormat t <> "") (all_targets d)).
  { intros d H. rewrite forallb_forall in H. apply Forall_forall. intros t Ht.
    specialize (H t Ht). apply andb_prop in H as [He Hl].
    apply negb_true_iff in He, Hl.
    split; intros E; rewrite E in *; discriminate. }
  split; apply G; vm_compute; reflexivity.
Qed.

(** C9: if serialization fails, because some field of the tree is not
    representable (a non-finite number, an unrecognized panel variant), the
    process ends with a non-zero status and at no point of the run has
    anything been written; if every field is representable the status is
    0. *)
Theorem serialization_failure_exit (d : Dashboard) :
  (serializable d = false ->
     exit_code (run d) <> 0 /\ stdout (run d) = "" /\
     forall e s, steps _gen_json_from_panels (holding e d) s -> out s = "") /\
  (serializable d = true -> exit_code (run d) = 0).
Proof.
  pose proof (to_json_data_serializable d) as H.
  split; intros S; rewrite S in H.
  - destruct H as [x Hx].
    pose proof (run_raise d x Hx) as R.
    pose proof (document_raise d x Hx) as D.
    split; [|split].
    + rewrite R. discriminate.
    + now rewrite R.
    + intros e s Hs.
      destruct (failure_atomic _gen_json_from_panels e d x D) as [_ A].
      exact (proj1 (A s Hs)).
  - destruct H as [j Hj]. now rewrite (run_ok d j Hj).
Qed.

Lemma failing_trees_witness :
  (serializable nan_axis_dashboard = false /\
   exit_code (run nan_axis_dashboard) <> 0 /\ stdout (run nan_axis_dashboard) = "") /\
  (serializable unknown_panel_dashboard = false /\
   exit_code (run unknown_panel_dashboard) <> 0 /\
   stdout (run unknown_panel_dashboard) = "") /\
  (serializable create_dashboard = true /\ exit_code (run create_dashboard) = 0).
Proof.
  split; [|split].
  - split; [reflexivity|].
    destruct (proj1 (serialization_failure_exit nan_axis_dashboard) eq_refl)
      as (H1 & H2 & _). now split.
  - split; [reflexivity|].
    destruct (proj1 (serialization_failure_exit unknown_panel_dashboard) eq_refl)
      as (H1 & H2 & _). now split.
  - split; [reflexivity|].
    exact (proj2 (serialization_failure_exit create_dashboard) eq_refl).
Defined.

(** C10: the dashboard declares exactly one template variable, named
    "datasource" and of type "datasource", and the data source of each of
    the twelve panels is the token "$datasource" that refers to it. *)
Theorem datasource_variable :
  map (fun t => (name t, type t)) (templates (templating create_dashboard)) =
    [ ("datasource", "datasource") ] /\
  List.length (all_panels create_dashboard) = 12%nat /\
  map dataSource (all_panels dashboard_literal) = repeat "$datasource" 12 /\
  forall p t,
    In p (all_panels create_dashboard) ->
    In t (templates (templating create_dashboard)) ->
    dataSource p = "$datasource" /\ dataSource p = "$" ++ name t.
Proof.
  split; [reflexivity|]. split; [reflexivity|]. split; [reflexivity|].
  intros p t Hp Ht.
  assert (Hd : dataSource p = "$datasource").
  { assert (H : forallb (fun p => String.eqb (dataSource p) "$datasource")
                        (all_panels create_dashboard) = true)
      by (vm_compute; reflexivity).
    rewrite forallb_forall in H. now apply String.eqb_eq, H. }
  split; [exact Hd|].
  destruct Ht as [<-|[]]. exact Hd.
Qed.


(** * Further properties of the code *)

(** ** The decoder and the encoder (lines 277 and 282) *)

Lemma all_chars_append (p : ascii -> bool) (a b : string) :
  all_chars p (a ++ b) = all_chars p a && all_chars p b.
Proof.
  induction a as [|c a IH]; cbn [append all_chars]; [reflexivity|].
  now rewrite IH, andb_assoc.
Qed.

Lemma escape_char_document (c : ascii) :
  all_chars document_char (escape_char c) = true.
Proof.
  destruct c as [[] [] [] [] [] [] [] []]; reflexivity.
Qed.

Lemma escape_document (s : string) : all_chars document_char (escape s) = true.
Proof.
  induction s as [|c s IH]; cbn [escape]; [reflexivity|].
  now rewrite all_chars_append, escape_char_document, IH.
Qed.

Lemma string_document (s : string) :
  all_chars document_char (encode_basestring_ascii s) = true.
Proof.
  unfold encode_basestring_ascii.
  rewrite !all_chars_append, escape_document. reflexivity.
Qed.

Lemma digits_document (ds : string) :
  all_digits ds = true -> all_chars document_char ds = true.
Proof.
  induction ds as [|c ds IH]; cbn [all_digits all_chars]; [reflexivity|].
  intros H. apply andb_prop in H as [Hc Hd]. rewrite (IH Hd), andb_true_r.
  clear - Hc. destruct c as [[] [] [] [] [] [] [] []]; cbv in Hc |- *;
    congruence.
Qed.

Lemma int_document (z : Z) : all_chars document_char (encode_int z) = true.
Proof.
  destruct (encode_int_shape z) as (ds & Hd & [-> | ->]).
  - now apply digits_document.
  - cbn [all_chars]. now rewrite (digits_document ds Hd).
Qed.

Lemma spaces_document (n : nat) : all_chars document_char (spaces n) = true.
Proof.
  induction n as [|n IH]; cbn [spaces all_chars]; [reflexivity|].
  now rewrite IH.
Qed.

Lemma newline_indent_document (indent level : nat) :
  all_chars document_char (newline_indent indent level) = true.
Proof.
  unfold newline_indent. cbn [all_chars]. now rewrite spaces_document.
Qed.

Lemma items_document (indent level : nat) (l : list json) :
  Forall (fun j => forall i n, all_chars document_char (encode i n j) = true) l ->
  all_chars document_char (encode_items indent level l) = true.
Proof.
  induction 1 as [|x l Hx _ IH]; [reflexivity|].
  cbn [encode_items].
  rewrite !all_chars_append, newline_indent_document, Hx.
  destruct l as [|y l]; [reflexivity|].
  cbn [append all_chars]. now rewrite IH.
Qed.

Lemma members_document (indent level : nat) (m : list (string * json)) :
  Forall (fun kv => forall i n,
            all_chars document_char (encode i n (snd kv)) = true) m ->
  all_chars document_char (encode_members indent level m) = true.
Proof.
  induction 1 as [|[k v] m Hx _ IH]; [reflexivity|]. cbn [snd] in Hx.
  cbn [encode_members].
  rewrite !all_chars_append, newline_indent_document, string_document, Hx.
  destruct m as [|y m]; [reflexivity|].
  cbn [append all_chars]. now rewrite IH.
Qed.

Lemma encode_document (j : json) (indent level : nat) :
  all_chars document_char (encode indent level j) = true.
Proof.
  revert indent level.
  induction j as [|b|z|s|l IH|m IH] using json_ind; intros indent level.
  - reflexivity.
  - destruct b; reflexivity.
  - apply int_document.
  - apply string_document.
  - destruct l as [|x l]; [reflexivity|].
    rewrite encode_arr. cbn [append all_chars].
    rewrite !all_chars_append, (items_document indent (S level) _ IH),
      newline_indent_document.
    reflexivity.
  - destruct m as [|kv m]; [reflexivity|].
    rewrite encode_obj. cbn [append all_chars].
    rewrite !all_chars_append, (members_document indent (S level) _ IH),
      newline_indent_document.
    reflexivity.
Qed.




(** X1: decoding inverts encoding.  For every value, at every indentation
    and with any white space after the text, [json.loads] returns the value
    that [json.dumps] was given; so the indentation chosen by whoever wrote
    the text does not matter to the reader. *)
Theorem loads_inverts_dumps (j : json) (n m : nat) (ws : string) :
  wf j -> skip_ws ws = "" ->
  json_loads (json_dumps n j ++ ws) = Ok j /\
  json_loads (json_dumps m j) = json_loads (json_dumps n j ++ ws).
Proof.
  intros W Hws.
  assert (E : json_loads (json_dumps n j ++ ws) = Ok j)
    by (now apply json_loads_encode).
  split; [exact E|]. rewrite E. now apply json_loads_dumps.
Qed.

Lemma sample_roundtrip_witness :
  wf sample_value /\ skip_ws (" " ++ LF) = "" /\
  json_loads (json_dumps 2 sample_value ++ " " ++ LF) = Ok sample_value /\
  json_loads (json_dumps 0 sample_value) =
  json_loads (json_dumps 2 sample_value ++ " " ++ LF).
Proof.
  assert (W : wf sample_value).
  { apply wf_obj. split; [apply nodupb_sound; reflexivity|].
    repeat constructor. }
  split; [exact W|]. split; [reflexivity|].
  exact (loads_inverts_dumps sample_value 2 0 (" " ++ LF) W eq_refl).
Defined.

(** X2: encoding is injective.  Two different values never have the same
    text. *)
Theorem dumps_injective (j1 j2 : json) (n : nat) :
  wf j1 -> wf j2 -> j1 <> j2 -> json_dumps n j1 <> json_dumps n j2.
Proof.
  intros W1 W2 Hne E. apply Hne.
  pose proof (json_loads_dumps j1 n W1) as H1.
  pose proof (json_loads_dumps j2 n W2) as H2.
  rewrite E in H1. congruence.
Qed.

Lemma distinct_lists_witness :
  wf (JArr [ JInt 1; JInt 2 ]) /\ wf (JArr [ JInt 12 ]) /\
  JArr [ JInt 1; JInt 2 ] <> JArr [ JInt 12 ] /\
  json_dumps 2 (JArr [ JInt 1; JInt 2 ]) <> json_dumps 2 (JArr [ JInt 12 ]).
Proof.
  assert (W1 : wf (JArr [ JInt 1; JInt 2 ])) by (cbn; tauto).
  assert (W2 : wf (JArr [ JInt 12 ])) by (cbn; tauto).
  assert (N : JArr [ JInt 1; JInt 2 ] <> JArr [ JInt 12 ]) by discriminate.
  repeat (split; [assumption|]).
  exact (dumps_injective _ _ 2 W1 W2 N).
Defined.

(** X3: the encoder writes ASCII only.  Every character of the text of
    every value, at every indentation, is a printable ASCII character or a
    line feed, whatever characters the strings of the value hold. *)
Theorem dumps_ascii_only (j : json) (indent : nat) :
  all_chars document_char (json_dumps indent j) = true.
Proof.
  apply encode_document.
Qed.



(** X5: the decoder rejects empty input.  A text that is empty or holds
    white space only raises a decoding error. *)
Theorem loads_blank (s : string) :
  skip_ws s = "" -> json_loads s = Raise JSONDecodeError.
Proof.
  intros H. unfold json_loads. rewrite H.
  now destruct (String.length s).
Qed.

Lemma blank_text_witness :
  skip_ws (" " ++ LF ++ "  ") = "" /\
  json_loads (" " ++ LF ++ "  ") = Raise JSONDecodeError.
Proof.
  split; [reflexivity|]. exact (loads_blank (" " ++ LF ++ "  ") eq_refl).
Defined.

(** X6: the decoder rejects extra data.  The text of a value followed by
    anything that is not white space (and does not continue a number)
    raises a decoding error instead of returning the value. *)
Theorem loads_extra_data (j : json) (n : nat) (c : ascii) (r : string) :
  wf j -> is_ws c = false -> continues_number (String c r) = false ->
  json_loads (json_dumps n j ++ String c r) = Raise JSONDecodeError.
Proof.
  intros W Hc Hn. unfold json_loads, json_dumps.
  rewrite skip_ws_starts_value
    by (apply starts_value_append, encode_starts_value).
  rewrite (parse_encode j n 0%nat _ (String c r) W); [| |exact Hn].
  - cbn [skip_ws]. now rewrite Hc.
  - rewrite length_append. pose proof (size_le_length j n 0%nat). lia.
Qed.

Lemma trailing_brace_witness :
  wf sample_value /\ is_ws "}" = false /\
  continues_number (String "}" "") = false /\
  json_loads (json_dumps 2 sample_value ++ String "}" "") = Raise JSONDecodeError.
Proof.
  assert (W : wf sample_value).
  { apply wf_obj. split; [apply nodupb_sound; reflexivity|].
    repeat constructor. }
  split; [exact W|]. split; [reflexivity|]. split; [reflexivity|].
  exact (loads_extra_data sample_value 2 "}" "" W eq_refl eq_refl).
Defined.

Lemma scan_unterminated (s : string) : scan_string (escape s) = None.
Proof.
  induction s as [|c s IH]; cbn [escape]; [reflexivity|].
  now rewrite scan_escape_char, IH.
Qed.

Lemma scan_control (s r : string) (c : ascii) :
  (N_of_ascii c <? 32)%N = true ->
  scan_string (escape s ++ String c r) = None.
Proof.
  intros Hc. induction s as [|a s IH]; cbn [escape append].
  - cbn [scan_string].
    assert (E : Ascii.eqb c dquote = false /\ Ascii.eqb c backslash = false).
    { clear - Hc. destruct c as [[] [] [] [] [] [] [] []]; cbv in Hc |- *;
        try discriminate Hc; split; reflexivity. }
    destruct E as [-> ->]. now rewrite Hc.
  - now rewrite append_assoc, scan_escape_char, IH.
Qed.

Lemma loads_string_prefix (t : string) :
  scan_string t = None -> json_loads (String dquote t) = Raise JSONDecodeError.
Proof.
  intros H. unfold json_loads.
  change (skip_ws (String dquote t)) with (String dquote t).
  cbn [String.length parse_value]. rewrite Ascii.eqb_refl, H. reflexivity.
Qed.

(** X12: the encoder indents by exactly the width it is given.  The text of
    every value is laid out with [n] spaces per level; and for a non-empty
    list or dict it is laid out with no other width. *)
Theorem dumps_indent_exact (j : json) (n m : nat) :
  pretty n (json_dumps n j ++ LF) = true /\
  (nonempty_container j = true -> n <> m ->
   pretty m (json_dumps n j ++ LF) = false).
Proof.
  split; [apply pretty_dumps|apply pretty_other_width].
Qed.

Lemma sample_width_witness :
  nonempty_container sample_value = true /\ 2%nat <> 4%nat /\
  pretty 2 (json_dumps 2 sample_value ++ LF) = true /\
  pretty 4 (json_dumps 2 sample_value ++ LF) = false.
Proof.
  split; [reflexivity|]. split; [discriminate|].
  destruct (dumps_indent_exact sample_value 2 4) as [P N].
  split; [exact P|]. apply N; [reflexivity|discriminate].
Defined.

(** X13: the decoder rejects a malformed string literal.  A literal whose
    closing quote is missing, and a literal that holds a raw control
    character, raise a decoding error, whatever precedes inside the literal
    and whatever follows. *)
Theorem loads_bad_string (s r : string) (c : ascii) :
  json_loads (String dquote (escape s)) = Raise JSONDecodeError /\
  ((N_of_ascii c <? 32)%N = true ->
   json_loads (String dquote (escape s ++ String c r)) = Raise JSONDecodeError).
Proof.
  split.
  - apply loads_string_prefix, scan_unterminated.
  - intros Hc. now apply loads_string_prefix, scan_control.
Qed.

Lemma raw_newline_witness :
  (N_of_ascii newline <? 32)%N = true /\
  json_loads (String dquote (escape "a" ++ String newline (String dquote "")))
  = Raise JSONDecodeError.
Proof.
  split; [reflexivity|].
  exact (proj2 (loads_bad_string "a" (String dquote "") newline) eq_refl).
Defined.

(** ** The main block (lines 269-282) *)

Lemma blank_raises (s : string) :
  skip_ws s = "" -> json_loads s = Raise JSONDecodeError.
Proof.
  intros H. unfold json_loads. rewrite H. now destruct (String.length s).
Qed.

Lemma bad_start_raises (s r : string) (c : ascii) :
  skip_ws s = String c r -> starts_no_value c = true ->
  json_loads s = Raise JSONDecodeError.
Proof.
  intros H Hc. unfold json_loads. rewrite H.
  destruct s as [|a s']; [discriminate H|]. cbn [String.length parse_value].
  clear H. destruct c as [[] [] [] [] [] [] [] []]; cbv in Hc;
    try discriminate Hc; reflexivity.
Qed.

Lemma extra_data_raises (j : json) (n : nat) (c : ascii) (r : string) :
  wf j -> is_ws c = false -> continues_number (String c r) = false ->
  json_loads (json_dumps n j ++ String c r) = Raise JSONDecodeError.
Proof.
  intros W Hc Hn. unfold json_loads, json_dumps.
  rewrite skip_ws_starts_value
    by (apply starts_value_append, encode_starts_value).
  rewrite (parse_encode j n 0%nat _ (String c r) W); [| |exact Hn].
  - cbn [skip_ws]. now rewrite Hc.
  - rewrite length_append. pose proof (size_le_length j n 0%nat). lia.
Qed.

(** A text that no JSON decoder accepts raises a decoding error. *)
Lemma not_json_raises (text : string) :
  not_json text -> json_loads text = Raise JSONDecodeError.
Proof.
  intros [s H|s c r H Hc|j n c r W Hc Hn|s|s c r Hc].
  - now apply blank_raises.
  - now apply (bad_start_raises s r c).
  - now apply extra_data_raises.
  - apply loads_string_prefix, scan_unterminated.
  - now apply loads_string_prefix, scan_control.
Qed.

(** X7: a serializer that returns text which is not JSON makes the script
    fail cleanly.  When the text is blank, starts with a character that
    starts no value, is a value followed by extra data, or is a malformed
    string literal, the decoding error ends the process with status 1, and
    at no point of the run has anything been written to standard output. *)
Theorem decode_failure_exit
    (gen : Dashboard -> result string) (e : environment) (d : Dashboard)
    (text : string) :
  gen d = Ok text -> not_json text ->
  run_with gen d = mkProcess "" 1 /\
  forall s, steps gen (holding e d) s ->
            out s = "" /\ (halted s -> at_control s = Exited 1).
Proof.
  intros Hg Hn. apply (failure_atomic gen e d JSONDecodeError).
  unfold document_with, bind. now rewrite Hg, (not_json_raises text Hn).
Qed.

Lemma broken_serializer_witness :
  broken_gen dashboard_literal = Ok "<html>" /\
  not_json "<html>" /\
  run_with broken_gen dashboard_literal = mkProcess "" 1.
Proof.
  assert (N : not_json "<html>")
    by (apply (not_json_start "<html>" "<" "html>"); reflexivity).
  split; [reflexivity|]. split; [exact N|].
  exact (proj1 (decode_failure_exit broken_gen quiet_environment
                  dashboard_literal "<html>" eq_refl N)).
Defined.

(** X8: the output does not depend on how the serializer lays out its text.
    Because line 277 decodes the text before line 282 encodes the envelope,
    a serializer that writes the same tree with another indentation, or with
    white space after it, gives byte for byte the same run. *)
Theorem output_ignores_serializer_layout
    (gen gen' : Dashboard -> result string) (d : Dashboard)
    (text : string) (tree : json) (n : nat) (ws : string) :
  gen d = Ok text -> json_loads text = Ok tree ->
  gen' d = Ok (json_dumps n tree ++ ws) -> skip_ws ws = "" ->
  run_with gen' d = run_with gen d.
Proof.
  intros Hg Hl Hg' Hws.
  assert (E : json_loads (json_dumps n tree ++ ws) = Ok tree)
    by (apply json_loads_encode; [exact (json_loads_wf _ _ Hl)|exact Hws]).
  unfold run_with, document_with, bind.
  now rewrite Hg, Hl, Hg', E.
Qed.

Lemma wide_serializer_witness :
  exists text tree,
    _gen_json_from_panels create_dashboard = Ok text /\
    json_loads text = Ok tree /\
    wide_gen create_dashboard = Ok (json_dumps 4 tree ++ LF) /\
    skip_ws LF = "" /\
    run_with wide_gen create_dashboard =
    run_with _gen_json_from_panels create_dashboard.
Proof.
  destruct (to_json_data create_dashboard) as [j|x] eqn:Hj;
    [|vm_compute in Hj; discriminate Hj].
  assert (Hg : _gen_json_from_panels create_dashboard = Ok (json_dumps 2 j))
    by (unfold _gen_json_from_panels, bind; now rewrite Hj).
  assert (Hl : json_loads (json_dumps 2 j) = Ok j)
    by (apply json_loads_dumps; exact (wf_to_json_data _ _ Hj)).
  assert (Hw : wide_gen create_dashboard = Ok (json_dumps 4 j ++ LF))
    by (unfold wide_gen, bind; now rewrite Hj).
  exists (json_dumps 2 j), j.
  repeat (split; [assumption || reflexivity|]).
  exact (output_ignores_serializer_layout _gen_json_from_panels wide_gen
           create_dashboard (json_dumps 2 j) j 4 LF Hg Hl Hw eq_refl).
Defined.

(** X14: the script's output is indented by two spaces and by no other
    width.  Whenever the serializer's text decodes, whatever tree it holds,
    what the script prints does not pass for a document laid out with any
    width other than 2. *)
Theorem output_indent_is_two
    (gen : Dashboard -> result string) (d : Dashboard)
    (text : string) (tree : json) (m : nat) :
  gen d = Ok text -> json_loads text = Ok tree -> m <> 2%nat ->
  pretty m (stdout (run_with gen d)) = false.
Proof.
  intros Hg Hl Hm. unfold run_with, document_with, bind.
  rewrite Hg, Hl. cbn [stdout]. unfold print. cbn [append].
  apply pretty_other_width; [reflexivity|]. intros E. now apply Hm.
Qed.

Lemma script_width_witness :
  exists text tree,
    _gen_json_from_panels create_dashboard = Ok text /\
    json_loads text = Ok tree /\ 4%nat <> 2%nat /\
    pretty 4 (stdout (run_with _gen_json_from_panels create_dashboard)) = false.
Proof.
  destruct (to_json_data create_dashboard) as [j|x] eqn:Hj;
    [|vm_compute in Hj; discriminate Hj].
  assert (Hg : _gen_json_from_panels create_dashboard = Ok (json_dumps 2 j))
    by (unfold _gen_json_from_panels, bind; now rewrite Hj).
  assert (Hl : json_loads (json_dumps 2 j) = Ok j)
    by (apply json_loads_dumps; exact (wf_to_json_data _ _ Hj)).
  assert (N : 4%nat <> 2%nat) by discriminate.
  exists (json_dumps 2 j), j.
  repeat (split; [assumption|]).
  exact (output_indent_is_two _gen_json_from_panels create_dashboard
           (json_dumps 2 j) j 4 Hg Hl N).
Defined.

(** ** The dashboard literal (lines 34-265) *)

(** X10: no two panels of the dashboard have the same title, and no two
    rows have, so a title names one panel. *)
Theorem titles_distinct :
  NoDup (map panel_title (all_panels create_dashboard)) /\
  NoDup (map row_title (rows create_dashboard)).
Proof.
  split; apply nodupb_sound; vm_compute; reflexivity.
Qed.

(** X11: every panel of the dashboard queries something, and the series of
    one panel can be told apart: each panel has at least one target, and the
    targets of one panel have pairwise different legends and pairwise
    different expressions. *)
Theorem panels_have_distinct_series :
  Forall (fun p => targets p <> [] /\
                   NoDup (map legendFormat (targets p)) /\
                   NoDup (map expr (targets p)))
         (all_panels create_dashboard).
Proof.
  assert (H : forallb (fun p => negb (Nat.eqb (List.length (targets p)) 0) &&
                                nodupb (map legendFormat (targets p)) &&
                                nodupb (map expr (targets p)))
                      (all_panels create_dashboard) = true)
    by (vm_compute; reflexivity).
  rewrite forallb_forall in H. apply Forall_forall. intros p Hp.
  specialize (H p Hp). apply andb_prop in H as [H He].
  apply andb_prop in H as [Hn Hl].
  split; [|split; now apply nodupb_sound].
  intros E. rewrite E in Hn. discriminate Hn.
Qed.
